(** * Notes backend: the in-memory note repository and its HTTP boundary

    A shallow embedding of [api/models.py], [api/repository.py] and the
    note handlers of [api/main.py].

    - Python objects live in a heap: a [Note] instance is an address into
      a list of records that only ever grows (allocation appends).  The
      dictionary [self.notes] maps ids to addresses, and [list_notes]
      returns a list of addresses, so sharing between the dictionary and
      the lists handed out to callers is visible in the model.
    - [datetime.utcnow()] and [uuid.uuid4()] read the environment; the
      clock reading and the sixteen random bytes are parameters of the
      calls that consume them.
    - The dictionary is a [gmap]; [list_notes] enumerates it in the map's
      order, where Python enumerates in insertion order.  Nothing below
      depends on the order of the listing. *)

From Stdlib Require Import ZArith NArith Ascii.
From stdpp Require Import base option list strings gmap fin_maps sorting.

Local Open Scope string_scope.
Local Open Scope list_scope.
Local Open Scope nat_scope.

(** ** Exceptions *)

Inductive exn : Type :=
| ValidationError
| HTTPException (status_code : Z) (detail : string).

Inductive except (A : Type) : Type :=
| Raise (e : exn)
| Return (a : A).
Arguments Raise {A} e.
Arguments Return {A} a.

(** ** models.py *)

(** A naive [datetime]: microseconds on the proleptic calendar. *)
Definition datetime : Type := Z.

Module Models.

(** [Field(..., min_length=n)] on a [str]. *)
Definition min_length (n : nat) (s : string) : bool :=
  bool_decide (n ≤ String.length s)%nat.

Module NoteCreate.
Record t : Type := Build { title : string; content : string }.
(** [title: str = Field(..., min_length=1)], [content: str = Field(...)] *)
Definition valid (m : t) : bool := min_length 1 (title m).
End NoteCreate.

Module NoteUpdate.
Record t : Type := Build { title : option string; content : option string }.
(** [title: Optional[str] = Field(None, min_length=1)] *)
Definition valid (m : t) : bool :=
  match title m with
  | None => true
  | Some s => min_length 1 s
  end.
End NoteUpdate.

Module Note.
Record t : Type := Build {
  id : string;
  title : string;
  content : string;
  created_at : datetime;
  updated_at : datetime
}.

(** [Note(id=..., title=..., ...)]: the constructor runs the field
    validators, the one that can fail on well-typed arguments being
    the [min_length=1] that [Note] inherits from [NoteBase]. *)
Definition init (id title content : string) (created_at updated_at : datetime)
  : except t :=
  if min_length 1 title
  then Return (Build id title content created_at updated_at)
  else Raise ValidationError.

(** [note.copy(update={"title": .., "content": .., "updated_at": ..})]:
    a new object; the fields named in [update] are replaced without
    validation, the others are copied. *)
Definition copy_update (note : t) (title content : string) (updated_at : datetime) : t :=
  Build (id note) title content (created_at note) updated_at.
End Note.

(** *** [generate_note_id]: [str(uuid.uuid4())] *)

(** [uuid.uuid4()] is [UUID(bytes=os.urandom(16), version=4)]: the
    sixteen bytes read as a big-endian integer, with the variant and
    version bits forced. *)
Definition uuid4 (urandom : N) : N :=
  let int := (urandom mod 2 ^ 128)%N in
  let int := N.ldiff int (N.shiftl 0xc000 48) in
  let int := N.lor int (N.shiftl 0x8000 48) in
  let int := N.ldiff int (N.shiftl 0xf000 64) in
  N.lor int (N.shiftl 4 76).

Definition hex_digit (d : N) : ascii :=
  match d with
  | 0 => "0" | 1 => "1" | 2 => "2" | 3 => "3" | 4 => "4" | 5 => "5"
  | 6 => "6" | 7 => "7" | 8 => "8" | 9 => "9" | 10 => "a" | 11 => "b"
  | 12 => "c" | 13 => "d" | 14 => "e" | _ => "f"
  end%N%char.

(** ['%0<width>x' % n] for [n < 16 ^ width]. *)
Fixpoint hex (width : nat) (n : N) : string :=
  match width with
  | O => ""
  | S k => hex k (n / 16)%N +:+ String (hex_digit (n mod 16)%N) ""
  end.

(** [UUID.__str__]: the 32 hex digits grouped 8-4-4-4-12. *)
Definition uuid_str (int : N) : string :=
  let h := hex 32 int in
  String.substring 0 8 h +:+ "-" +:+ String.substring 8 4 h +:+ "-" +:+ String.substring 12 4 h
    +:+ "-" +:+ String.substring 16 4 h +:+ "-" +:+ String.substring 20 12 h.

Definition generate_note_id (urandom : N) : string := uuid_str (uuid4 urandom).

End Models.

Import Models.

(** ** repository.py *)

(** The address of a [Note] object. *)
Definition addr : Type := nat.

(** The program state: the objects allocated so far, and the dictionary
    [note_repository.notes]. *)
Record State : Type := mkState {
  heap : list Note.t;
  notes : gmap string addr
}.

Module NoteRepository.

(** [__init__]: [self.notes = {}] *)
Definition init : State := mkState [] ∅.

(** Allocation of a fresh object: its address is the next free one. *)
Definition alloc (note : Note.t) (h : list Note.t) : list Note.t * addr :=
  (h ++ [note], length h).

Definition create_note (now : datetime) (urandom : N) (note_create : NoteCreate.t)
    (s : State) : State * except addr :=
  let note_id := generate_note_id urandom in
  match Note.init note_id (NoteCreate.title note_create)
          (NoteCreate.content note_create) now now with
  | Raise e => (s, Raise e)
  | Return note =>
      let '(h, a) := alloc note (heap s) in
      (mkState h (<[note_id := a]> (notes s)), Return a)
  end.

Definition get_note (note_id : string) (s : State) : State * option addr :=
  (s, notes s !! note_id).

Definition update_note (now : datetime) (note_id : string) (note_update : NoteUpdate.t)
    (s : State) : State * option addr :=
  match notes s !! note_id with
  | None => (s, None)
  | Some a =>
      match heap s !! a with
      | None => (s, None) (* no object at [a]: a dictionary value is always live *)
      | Some note =>
          let updated :=
            Note.copy_update note
              (match NoteUpdate.title note_update with
               | Some title => title
               | None => Note.title note
               end)
              (match NoteUpdate.content note_update with
               | Some content => content
               | None => Note.content note
               end)
              now in
          let '(h, a') := alloc updated (heap s) in
          (mkState h (<[note_id := a']> (notes s)), Some a')
      end
  end.

(** [self.notes.pop(note_id, None) is not None] *)
Definition delete_note (note_id : string) (s : State) : State * bool :=
  (mkState (heap s) (delete note_id (notes s)),
   match notes s !! note_id with
   | Some _ => true
   | None => false
   end).

(** [list(self.notes.values())]: a new list of the same objects. *)
Definition list_notes (s : State) : State * list addr :=
  (s, (map_to_list (notes s)).*2).

End NoteRepository.

(** ** main.py: the handlers, DELETE first *)

Module Main.

(** The values this module passes as [content] to [JSONResponse]. *)
Inductive content : Type :=
| PyNone.

(** [json.dumps] *)
Definition json_dumps (c : content) : string :=
  match c with
  | PyNone => "null"
  end.

(** A rendered response.  [JSONResponse.__init__] stores the status and
    sets [self.body = self.render(content)], where [JSONResponse.render]
    is [json.dumps(content, ...).encode("utf-8")]. *)
Record JSONResponse : Type := mkResponse {
  status_code : Z;
  body : string
}.

Definition JSONResponse_init (status_code : Z) (c : content) : JSONResponse :=
  mkResponse status_code (json_dumps c).

Definition HTTP_204_NO_CONTENT : Z := 204.

Definition delete_note (note_id : string) (s : State) : State * except JSONResponse :=
  let '(s', deleted) := NoteRepository.delete_note note_id s in
  if negb deleted
  then (s', Raise (HTTPException 404 "Note not found"))
  else (s', Return (JSONResponse_init HTTP_204_NO_CONTENT PyNone)).

(** The other handlers.  [if not note] tests for [None]: a model instance
    is always truthy. *)
Definition create_note (now : datetime) (urandom : N) (note : NoteCreate.t)
    (s : State) : State * except addr :=
  NoteRepository.create_note now urandom note s.

Definition list_notes (s : State) : State * list addr :=
  NoteRepository.list_notes s.

Definition get_note (note_id : string) (s : State) : State * except addr :=
  let '(s', note) := NoteRepository.get_note note_id s in
  match note with
  | None => (s', Raise (HTTPException 404 "Note not found"))
  | Some a => (s', Return a)
  end.

Definition update_note (now : datetime) (note_id : string)
    (note_update : NoteUpdate.t) (s : State) : State * except addr :=
  let '(s', note) := NoteRepository.update_note now note_id note_update s in
  match note with
  | None => (s', Raise (HTTPException 404 "Note not found"))
  | Some a => (s', Return a)
  end.

End Main.

(** ** Histories: sequences of repository calls *)

Inductive call : Type :=
| CreateNote (now : datetime) (urandom : N) (note_create : NoteCreate.t)
| GetNote (note_id : string)
| UpdateNote (now : datetime) (note_id : string) (note_update : NoteUpdate.t)
| DeleteNote (note_id : string)
| ListNotes.

Inductive result : Type :=
| Created (r : except addr)
| Got (r : option addr)
| Updated (r : option addr)
| Deleted (r : bool)
| Listed (r : list addr).

Definition exec (c : call) (s : State) : State * result :=
  match c with
  | CreateNote now urandom note_create =>
      let '(s', r) := NoteRepository.create_note now urandom note_create s in (s', Created r)
  | GetNote note_id =>
      let '(s', r) := NoteRepository.get_note note_id s in (s', Got r)
  | UpdateNote now note_id note_update =>
      let '(s', r) := NoteRepository.update_note now note_id note_update s in (s', Updated r)
  | DeleteNote note_id =>
      let '(s', r) := NoteRepository.delete_note note_id s in (s', Deleted r)
  | ListNotes =>
      let '(s', r) := NoteRepository.list_notes s in (s', Listed r)
  end.

(** What an observer of the calls has seen: the current state, the ids of
    the notes [create_note] has returned, and how many [delete_note]
    calls have returned [True]. *)
Record History : Type := mkHistory {
  state : State;
  created : list string;
  deleted : nat
}.

Definition observe (h : History) (c : call) : History :=
  let '(s', r) := exec c (state h) in
  mkHistory s'
    (created h ++
       match r with
       | Created (Return a) =>
           match heap s' !! a with
           | Some note => [Note.id note]
           | None => []
           end
       | _ => []
       end)
    (deleted h +
       match r with
       | Deleted true => 1
       | _ => 0
       end).

Definition run (calls : list call) : History :=
  fold_left observe calls (mkHistory NoteRepository.init [] 0).

(** The clock readings the calls were made at, in order. *)
Definition clock_reading (c : call) : list datetime :=
  match c with
  | CreateNote now _ _ | UpdateNote now _ _ => [now]
  | _ => []
  end.

Definition clock_readings (calls : list call) : list datetime :=
  calls ≫= clock_reading.

Definition monotone_clock (calls : list call) : Prop :=
  StronglySorted Z.le (clock_readings calls).

(** The validation the boundary layer performs when it parses a request
    body into a [NoteCreate] or a [NoteUpdate]. *)
Definition validated (c : call) : bool :=
  match c with
  | CreateNote _ _ note_create => NoteCreate.valid note_create
  | UpdateNote _ _ note_update => NoteUpdate.valid note_update
  | _ => true
  end.

(** The note stored under an id: the dictionary entry, dereferenced. *)
Definition stored (s : State) (note_id : string) : option Note.t :=
  notes s !! note_id ≫= λ a, heap s !! a.

(** A returned reference, dereferenced. *)
Definition deref (s : State) (a : addr) : option Note.t := heap s !! a.

(** Execution from an arbitrary state, forgetting the results. *)
Definition exec_all (calls : list call) (s : State) : State :=
  fold_left (λ s c, (exec c s).1) calls s.

Definition is_create (c : call) : bool :=
  match c with
  | CreateNote _ _ _ => true
  | _ => false
  end.

(** The ways a call can change what an observer has seen.  Every call
    falls under one of them ([observe_effect] below). *)
Inductive effect (h : History) : call → History → Prop :=
| effect_none c :
    effect h c h
| effect_create now urandom note_create :
    NoteCreate.valid note_create = true →
    let note_id := generate_note_id urandom in
    let note := Note.Build note_id (NoteCreate.title note_create)
                  (NoteCreate.content note_create) now now in
    effect h (CreateNote now urandom note_create)
      (mkHistory
         (mkState (heap (state h) ++ [note])
            (<[note_id := length (heap (state h))]> (notes (state h))))
         (created h ++ [note_id]) (deleted h))
| effect_update now note_id note_update a note :
    notes (state h) !! note_id = Some a →
    heap (state h) !! a = Some note →
    let updated :=
      Note.Build (Note.id note)
        (default (Note.title note) (NoteUpdate.title note_update))
        (default (Note.content note) (NoteUpdate.content note_update))
        (Note.created_at note) now in
    effect h (UpdateNote now note_id note_update)
      (mkHistory
         (mkState (heap (state h) ++ [updated])
            (<[note_id := length (heap (state h))]> (notes (state h))))
         (created h) (deleted h))
| effect_delete note_id a :
    notes (state h) !! note_id = Some a →
    effect h (DeleteNote note_id)
      (mkHistory
         (mkState (heap (state h)) (delete note_id (notes (state h))))
         (created h) (S (deleted h))).

(** Every dictionary value is the address of a live object, and that
    object carries the key as its id. *)
Definition well_formed (s : State) : Prop :=
  ∀ k a, notes s !! k = Some a → ∃ n, heap s !! a = Some n ∧ Note.id n = k.

(** The timestamps of the stored notes are ordered and were read off the
    clock at one of the given readings. *)
Definition timestamps_ok (readings : list datetime) (s : State) : Prop :=
  ∀ k n, stored s k = Some n →
    (Note.created_at n ≤ Note.updated_at n)%Z ∧ Note.updated_at n ∈ readings.

(** The calls that cannot remove or replace the entry under [k]: all but
    a [delete_note] of [k] and a [create_note] that generates [k] again. *)
Definition keeps (k : string) (c : call) : bool :=
  match c with
  | DeleteNote note_id => negb (String.eqb note_id k)
  | CreateNote _ urandom _ => negb (String.eqb (generate_note_id urandom) k)
  | _ => true
  end.

(** Where the hex digits of the 128-bit integer go in the rendered UUID:
    digit [j] of the 32, counted from the most significant, is followed
    by one hyphen more for each group boundary before it. *)
Definition uuid_pos (j : nat) : nat :=
  if decide (j < 8) then j
  else if decide (j < 12) then j + 1
  else if decide (j < 16) then j + 2
  else if decide (j < 20) then j + 3
  else j + 4.

(** The six bits of the 128 that [uuid4] forces: the two variant bits and
    the four version bits. *)
Definition forced_bit (m : N) : bool :=
  ((m =? 62) || (m =? 63) || (76 <=? m) && (m <=? 79))%N.

(** * Properties *)

(** ** Identifiers and validation *)

Lemma min_length_1 (s : string) : min_length 1 s = true ↔ s ≠ "".
Proof.
  unfold min_length. rewrite bool_decide_eq_true.
  destruct s; simpl; split; (congruence || lia).
Qed.

Lemma string_length_app (s1 s2 : string) :
  String.length (s1 +:+ s2) = String.length s1 + String.length s2.
Proof. induction s1 as [|c s1 IH]; simpl; [done | by rewrite IH]. Qed.

Lemma substring_length (n m : nat) (s : string) :
  n + m ≤ String.length s → String.length (String.substring n m s) = m.
Proof.
  revert n m. induction s as [|c s IH]; intros [|n] [|m]; simpl; try lia; try done.
  - intros H. rewrite (IH 0 m); lia.
  - intros H. apply (IH n 0). lia.
  - intros H. apply (IH n (S m)). lia.
Qed.

Lemma hex_length (width : nat) (n : N) : String.length (hex width n) = width.
Proof.
  revert n. induction width as [|k IH]; intros n; simpl; [done |].
  rewrite string_length_app, IH. simpl. lia.
Qed.

(** A generated id is the 36 characters of a UUID. *)
Lemma generate_note_id_length (urandom : N) :
  String.length (generate_note_id urandom) = 36.
Proof.
  unfold generate_note_id, uuid_str.
  rewrite !string_length_app, !substring_length by (rewrite hex_length; lia).
  reflexivity.
Qed.

Lemma generate_note_id_nonempty (urandom : N) : generate_note_id urandom ≠ "".
Proof.
  intros E. pose proof (generate_note_id_length urandom) as L.
  rewrite E in L. discriminate L.
Qed.

(** ** The operations, one call at a time *)

Lemma State_eta (s : State) : mkState (heap s) (notes s) = s.
Proof. by destruct s. Qed.

Lemma History_eta (h : History) : mkHistory (state h) (created h) (deleted h) = h.
Proof. by destruct h. Qed.

Lemma create_note_Return now urandom note_create s :
  NoteCreate.valid note_create = true →
  NoteRepository.create_note now urandom note_create s =
    (mkState
       (heap s ++ [Note.Build (generate_note_id urandom) (NoteCreate.title note_create)
                     (NoteCreate.content note_create) now now])
       (<[generate_note_id urandom := length (heap s)]> (notes s)),
     Return (length (heap s))).
Proof.
  unfold NoteCreate.valid, NoteRepository.create_note, Note.init. by intros ->.
Qed.

Lemma create_note_Raise now urandom note_create s :
  NoteCreate.valid note_create = false →
  NoteRepository.create_note now urandom note_create s = (s, Raise ValidationError).
Proof.
  unfold NoteCreate.valid, NoteRepository.create_note, Note.init. by intros ->.
Qed.

Lemma update_note_Some now note_id note_update s a note :
  notes s !! note_id = Some a →
  heap s !! a = Some note →
  NoteRepository.update_note now note_id note_update s =
    (mkState
       (heap s ++ [Note.Build (Note.id note)
                     (default (Note.title note) (NoteUpdate.title note_update))
                     (default (Note.content note) (NoteUpdate.content note_update))
                     (Note.created_at note) now])
       (<[note_id := length (heap s)]> (notes s)),
     Some (length (heap s))).
Proof.
  unfold NoteRepository.update_note, Note.copy_update. intros -> ->.
  by destruct (NoteUpdate.title note_update), (NoteUpdate.content note_update).
Qed.

Lemma update_note_None now note_id note_update s :
  notes s !! note_id = None →
  NoteRepository.update_note now note_id note_update s = (s, None).
Proof. unfold NoteRepository.update_note. by intros ->. Qed.

Lemma delete_note_true note_id s a :
  notes s !! note_id = Some a →
  NoteRepository.delete_note note_id s =
    (mkState (heap s) (delete note_id (notes s)), true).
Proof. unfold NoteRepository.delete_note. by intros ->. Qed.

Lemma delete_note_false note_id s :
  notes s !! note_id = None →
  NoteRepository.delete_note note_id s = (s, false).
Proof.
  unfold NoteRepository.delete_note. intros E.
  rewrite E, delete_id by done. by rewrite State_eta.
Qed.

Lemma heap_alloc_new (h : list Note.t) (note : Note.t) :
  (h ++ [note]) !! length h = Some note.
Proof. by rewrite list_lookup_middle. Qed.

Lemma heap_alloc_old (h : list Note.t) (note n : Note.t) (a : addr) :
  h !! a = Some n → (h ++ [note]) !! a = Some n.
Proof. apply lookup_app_l_Some. Qed.

Lemma observe_unchanged (h : History) :
  mkHistory (state h) (created h ++ []) (deleted h + 0) = h.
Proof. by rewrite app_nil_r, Nat.add_0_r, History_eta. Qed.

Lemma observe_effect (h : History) (c : call) : effect h c (observe h c).
Proof.
  destruct c as [now urandom note_create | note_id | now note_id note_update
                | note_id | ]; unfold observe, exec.
  - destruct (NoteCreate.valid note_create) eqn:V.
    + rewrite create_note_Return by done. cbn [heap].
      rewrite heap_alloc_new, Nat.add_0_r. cbn [Note.id].
      by apply effect_create.
    + rewrite create_note_Raise by done.
      rewrite observe_unchanged. constructor.
  - cbn. rewrite observe_unchanged. constructor.
  - destruct (notes (state h) !! note_id) as [a|] eqn:L.
    + destruct (heap (state h) !! a) as [note|] eqn:D.
      * rewrite (update_note_Some _ _ _ _ a note) by done.
        rewrite app_nil_r, Nat.add_0_r. by eapply effect_update.
      * unfold NoteRepository.update_note. rewrite L, D.
        rewrite observe_unchanged. constructor.
    + rewrite update_note_None by done.
      rewrite observe_unchanged. constructor.
  - destruct (notes (state h) !! note_id) as [a|] eqn:L.
    + rewrite (delete_note_true _ _ a) by done.
      rewrite app_nil_r, Nat.add_1_r. by eapply effect_delete.
    + rewrite delete_note_false by done.
      rewrite observe_unchanged. constructor.
  - cbn. rewrite observe_unchanged. constructor.
Qed.

Lemma run_nil : run [] = mkHistory NoteRepository.init [] 0.
Proof. reflexivity. Qed.

Lemma run_snoc (calls : list call) (c : call) :
  run (calls ++ [c]) = observe (run calls) c.
Proof. unfold run. by rewrite fold_left_app. Qed.

Lemma state_observe (h : History) (c : call) :
  state (observe h c) = (exec c (state h)).1.
Proof. unfold observe. by destruct (exec c (state h)). Qed.

Lemma exec_all_snoc (calls : list call) (c : call) (s : State) :
  exec_all (calls ++ [c]) s = (exec c (exec_all calls s)).1.
Proof. unfold exec_all. by rewrite fold_left_app. Qed.

Lemma state_run_app (calls later : list call) :
  state (run (calls ++ later)) = exec_all later (state (run calls)).
Proof.
  induction later as [|c later IH] using rev_ind.
  - by rewrite app_nil_r.
  - by rewrite app_assoc, run_snoc, state_observe, exec_all_snoc, IH.
Qed.

(** ** C1: create, then get *)

(** C1.  For every title and content with the title non-empty,
    [create_note] returns (it does not raise) a reference to a note with
    a non-empty id, the given title and content, and equal [created_at]
    and [updated_at]; a [get_note] of that id on the resulting state
    leaves the state as it is and returns that very object. *)
Theorem create_note_then_get
    (now : datetime) (urandom : N) (title content : string) (s : State) :
  title ≠ "" →
  ∃ s' a n,
    NoteRepository.create_note now urandom (NoteCreate.Build title content) s
      = (s', Return a)
    ∧ deref s' a = Some n
    ∧ Note.id n ≠ ""
    ∧ Note.title n = title
    ∧ Note.content n = content
    ∧ Note.created_at n = Note.updated_at n
    ∧ NoteRepository.get_note (Note.id n) s' = (s', Some a)
    ∧ stored s' (Note.id n) = Some n.
Proof.
  intros Ht. apply min_length_1 in Ht.
  eexists _, _, _. split; [by apply create_note_Return |].
  split; [apply heap_alloc_new |].
  unfold stored, NoteRepository.get_note. cbn [heap notes Note.id].
  rewrite !lookup_insert_eq.
  split_and!; try reflexivity; [apply generate_note_id_nonempty |].
  apply heap_alloc_new.
Qed.

Lemma create_note_then_get_witness :
  "Groceries" ≠ "" ∧
  ∃ s' a n,
    NoteRepository.create_note 1700000000000000%Z 7%N
      (NoteCreate.Build "Groceries" "Milk, eggs") NoteRepository.init = (s', Return a)
    ∧ deref s' a = Some n
    ∧ Note.id n ≠ ""
    ∧ Note.title n = "Groceries"
    ∧ Note.content n = "Milk, eggs"
    ∧ Note.created_at n = Note.updated_at n
    ∧ NoteRepository.get_note (Note.id n) s' = (s', Some a)
    ∧ stored s' (Note.id n) = Some n.
Proof.
  split; [discriminate |].
  apply (create_note_then_get 1700000000000000%Z 7%N "Groceries" "Milk, eggs"
           NoteRepository.init).
  discriminate.
Defined.

(** ** Update of a stored note, in any state *)

Lemma update_note_stored
    (now : datetime) (note_id : string) (note_update : NoteUpdate.t)
    (s : State) (prior : Note.t) :
  stored s note_id = Some prior →
  ∃ s' a n,
    NoteRepository.update_note now note_id note_update s = (s', Some a)
    ∧ deref s' a = Some n
    ∧ n = Note.Build (Note.id prior)
            (default (Note.title prior) (NoteUpdate.title note_update))
            (default (Note.content prior) (NoteUpdate.content note_update))
            (Note.created_at prior) now
    ∧ notes s' = <[note_id := a]> (notes s)
    ∧ stored s' note_id = Some n.
Proof.
  unfold stored. intros (a0 & L & D)%bind_Some.
  eexists _, _, _. split; [by eapply update_note_Some |].
  split; [apply heap_alloc_new |].
  cbn [heap notes]. rewrite lookup_insert_eq.
  split_and!; try done. apply heap_alloc_new.
Qed.

(** In a well-formed state [update_note] returns [None] only for an id
    that is not a key: the branch for a dictionary value that designates
    no object is never taken. *)
Lemma update_note_None_iff
    (now : datetime) (note_id : string) (note_update : NoteUpdate.t) (s : State) :
  well_formed s →
  (NoteRepository.update_note now note_id note_update s).2 = None
  ↔ notes s !! note_id = None.
Proof.
  intros WF. split.
  - destruct (notes s !! note_id) as [a|] eqn:L; [| done].
    destruct (WF note_id a L) as (n & Hn & _).
    by rewrite (update_note_Some _ _ _ _ a n).
  - intros L. by rewrite update_note_None.
Qed.

(** ** C4: delete *)

Lemma absent_preserved (c : call) (s : State) (note_id : string) :
  is_create c = false →
  notes s !! note_id = None →
  notes (exec c s).1 !! note_id = None.
Proof.
  intros Hc Habs. rewrite <- (state_observe (mkHistory s [] 0)).
  destruct (observe_effect (mkHistory s [] 0) c)
    as [ | | now k nu a note L D | k a L ]; cbn [state notes] in *; try done.
  - rewrite lookup_insert_ne; [done | congruence].
  - rewrite lookup_delete. by case_decide.
Qed.

Lemma absent_preserved_all (calls : list call) (s : State) (note_id : string) :
  forallb (λ c, negb (is_create c)) calls = true →
  notes s !! note_id = None →
  notes (exec_all calls s) !! note_id = None.
Proof.
  induction calls as [|c calls IH] using rev_ind; [done |].
  rewrite forallb_app. cbn [forallb]. rewrite !andb_true_iff, negb_true_iff.
  intros (H1 & H2 & _) Habs. rewrite exec_all_snoc.
  apply absent_preserved; auto.
Qed.

(** C4.  [delete_note] returns [True] exactly when the id was in the
    dictionary before the call; afterwards the id is absent, so a second
    [delete_note] of it, with no [create_note] in between, returns
    [False]; and for an id that is not stored it returns [False] and
    leaves the state as it was. *)
Theorem delete_note_once (note_id : string) (s : State) :
  let s' := (NoteRepository.delete_note note_id s).1 in
  let r := (NoteRepository.delete_note note_id s).2 in
  (r = true ↔ is_Some (notes s !! note_id))
  ∧ notes s' !! note_id = None
  ∧ (∀ between : list call,
       forallb (λ c, negb (is_create c)) between = true →
       (NoteRepository.delete_note note_id (exec_all between s')).2 = false)
  ∧ (notes s !! note_id = None → r = false ∧ s' = s).
Proof.
  cbn zeta. split_and!.
  - unfold NoteRepository.delete_note. cbn [snd].
    destruct (notes s !! note_id); split; first [done | by intros [? ?]].
  - cbn. apply lookup_delete_eq.
  - intros between Hb.
    rewrite delete_note_false; [done |].
    apply absent_preserved_all; [done |]. cbn. apply lookup_delete_eq.
  - intros Habs. by rewrite delete_note_false.
Qed.

Lemma delete_note_once_witness :
  let note_id := generate_note_id 7%N in
  let s := (NoteRepository.create_note 10%Z 7%N
              (NoteCreate.Build "Groceries" "Milk, eggs") NoteRepository.init).1 in
  let s' := (NoteRepository.delete_note note_id s).1 in
  (NoteRepository.delete_note note_id s).2 = true
  ∧ (NoteRepository.delete_note note_id
       (exec_all [ListNotes; GetNote note_id;
                  UpdateNote 11%Z note_id (NoteUpdate.Build (Some "x") None)] s')).2 = false
  ∧ (NoteRepository.delete_note "does-not-exist" NoteRepository.init).2 = false
  ∧ (NoteRepository.delete_note "does-not-exist" NoteRepository.init).1
      = NoteRepository.init.
Proof.
  intros note_id s s'.
  destruct (delete_note_once note_id s) as (Hiff & _ & Hagain & _).
  destruct (delete_note_once "does-not-exist" NoteRepository.init) as (_ & _ & _ & Hnever).
  split; [apply Hiff; vm_compute; eauto |].
  split; [apply Hagain; reflexivity |].
  apply Hnever. reflexivity.
Defined.

(** ** C5: update of an id that is not stored *)

(** C5.  For an id that is not in the dictionary, [update_note] returns
    [None] and the state, heap and dictionary alike, is the one it was
    called on: no note is created under the id. *)
Theorem update_note_absent
    (now : datetime) (note_id : string) (note_update : NoteUpdate.t) (s : State) :
  notes s !! note_id = None →
  NoteRepository.update_note now note_id note_update s = (s, None).
Proof. apply update_note_None. Qed.

Lemma update_note_absent_witness :
  notes NoteRepository.init !! "does-not-exist" = None ∧
  NoteRepository.update_note 10%Z "does-not-exist"
    (NoteUpdate.Build (Some "X") None) NoteRepository.init
  = (NoteRepository.init, None).
Proof.
  split; [reflexivity |].
  apply (update_note_absent 10%Z "does-not-exist"
           (NoteUpdate.Build (Some "X") None) NoteRepository.init).
  reflexivity.
Defined.

(** ** Invariants of the reachable states *)

Lemma effect_well_formed (h h' : History) (c : call) :
  effect h c h' → well_formed (state h) → well_formed (state h').
Proof.
  intros [ | now urandom nc V note_id note | now note_id nu a note L D updated
         | note_id a L ] WF k b; cbn [state notes heap]; [by apply WF | | |].
  - rewrite lookup_insert. case_decide as E.
    + intros [= <-]. exists note. by rewrite heap_alloc_new.
    + intros Hk. destruct (WF k b Hk) as (n & Hn & Hid).
      exists n. split; [by apply heap_alloc_old | done].
  - rewrite lookup_insert. case_decide as E.
    + intros [= <-]. exists updated. rewrite heap_alloc_new. split; [done |].
      destruct (WF note_id a L) as (n & Hn & Hid). cbn. congruence.
    + intros Hk. destruct (WF k b Hk) as (n & Hn & Hid).
      exists n. split; [by apply heap_alloc_old | done].
  - rewrite lookup_delete. case_decide; [done | by apply WF].
Qed.

Lemma run_well_formed (calls : list call) : well_formed (state (run calls)).
Proof.
  induction calls as [|c calls IH] using rev_ind.
  - intros k a. rewrite run_nil. cbn. by rewrite lookup_empty.
  - rewrite run_snoc. eapply effect_well_formed; [apply observe_effect | done].
Qed.

(** Every key of the dictionary is an id that [create_note] returned. *)
Lemma run_keys_created (calls : list call) (k : string) :
  is_Some (notes (state (run calls)) !! k) → k ∈ created (run calls).
Proof.
  induction calls as [|c calls IH] using rev_ind.
  - rewrite run_nil. cbn. rewrite lookup_empty. by intros [? ?].
  - rewrite run_snoc.
    destruct (observe_effect (run calls) c)
      as [ | now urandom nc V note_id note | now note_id nu a note L D updated
         | note_id a L ]; cbn [state notes created]; [done | | |].
    + rewrite lookup_insert, elem_of_app, list_elem_of_singleton.
      case_decide; [by right | by left; apply IH].
    + rewrite lookup_insert. case_decide as E; [| done].
      intros _. apply IH. rewrite <- E. by eexists.
    + rewrite lookup_delete. case_decide; [by intros [? ?] | done].
Qed.

(** Objects are never mutated and never freed: what an address holds, it
    holds after any call. *)
Lemma exec_heap (c : call) (s : State) (a : addr) (n : Note.t) :
  deref s a = Some n → deref (exec c s).1 a = Some n.
Proof.
  unfold deref. intros D. rewrite <- (state_observe (mkHistory s [] 0)).
  destruct (observe_effect (mkHistory s [] 0) c); cbn [state heap] in *;
    try done; by apply heap_alloc_old.
Qed.

Lemma exec_all_heap (calls : list call) (s : State) (a : addr) (n : Note.t) :
  deref s a = Some n → deref (exec_all calls s) a = Some n.
Proof.
  intros D. induction calls as [|c calls IH] using rev_ind; [done |].
  rewrite exec_all_snoc. by apply exec_heap.
Qed.

(** Where a stored note comes from: it was stored before the call, or the
    call is the [create_note] or the [update_note] that built it. *)
Lemma stored_effect_inv (h h' : History) (c : call) (k : string) (n : Note.t) :
  effect h c h' →
  well_formed (state h) →
  stored (state h') k = Some n →
  stored (state h) k = Some n
  ∨ (∃ now urandom nc,
       c = CreateNote now urandom nc ∧ NoteCreate.valid nc = true
       ∧ n = Note.Build (generate_note_id urandom) (NoteCreate.title nc)
               (NoteCreate.content nc) now now)
  ∨ (∃ now nu prior,
       c = UpdateNote now k nu ∧ stored (state h) k = Some prior
       ∧ n = Note.Build (Note.id prior)
               (default (Note.title prior) (NoteUpdate.title nu))
               (default (Note.content prior) (NoteUpdate.content nu))
               (Note.created_at prior) now).
Proof.
  unfold stored.
  intros [ | now urandom nc V note_id note | now note_id nu a note L D updated
         | note_id a L ] WF; cbn [state notes heap]; [by left | | |].
  - rewrite lookup_insert. case_decide as E.
    + cbn. rewrite heap_alloc_new. intros [= <-]. right; left. by eexists _, _, _.
    + intros (b & Hk & Hb)%bind_Some. left.
      destruct (WF k b Hk) as (n0 & Hn0 & _).
      rewrite (heap_alloc_old _ _ _ _ Hn0) in Hb.
      injection Hb as <-. apply bind_Some. by exists b.
  - rewrite lookup_insert. case_decide as E.
    + cbn. rewrite heap_alloc_new. intros [= <-]. right; right.
      exists now, nu, note. rewrite <- E.
      split_and!; [done | apply bind_Some; by exists a | done].
    + intros (b & Hk & Hb)%bind_Some. left.
      destruct (WF k b Hk) as (n0 & Hn0 & _).
      rewrite (heap_alloc_old _ _ _ _ Hn0) in Hb.
      injection Hb as <-. apply bind_Some. by exists b.
  - rewrite lookup_delete. case_decide; [done | by left].
Qed.

(** ** C3: [created_at <= updated_at] *)

Lemma clock_readings_snoc (calls : list call) (c : call) :
  clock_readings (calls ++ [c]) = clock_readings calls ++ clock_reading c.
Proof.
  unfold clock_readings. rewrite bind_app. cbn. by rewrite app_nil_r.
Qed.

Lemma monotone_clock_snoc (calls : list call) (c : call) :
  monotone_clock (calls ++ [c]) →
  monotone_clock calls
  ∧ ∀ t now, t ∈ clock_readings calls → now ∈ clock_reading c → (t ≤ now)%Z.
Proof.
  unfold monotone_clock. rewrite clock_readings_snoc, StronglySorted_app.
  intros (H2 & H1 & _). split; [done |]. intros t now Ht Hnow. by apply H2.
Qed.

Lemma run_timestamps_ok (calls : list call) :
  monotone_clock calls → timestamps_ok (clock_readings calls) (state (run calls)).
Proof.
  induction calls as [|c calls IH] using rev_ind.
  - intros _ k n. rewrite run_nil. unfold stored. cbn. by rewrite lookup_empty.
  - intros (Hmono & Hlast)%monotone_clock_snoc k n St.
    rewrite run_snoc in St. rewrite clock_readings_snoc, elem_of_app.
    specialize (IH Hmono).
    destruct (stored_effect_inv _ _ _ _ _ (observe_effect (run calls) c)
                (run_well_formed calls) St)
      as [Old | [(now & urandom & nc & -> & V & ->)
               | (now & nu & prior & -> & Hprior & ->)]].
    + destruct (IH k n Old) as [Hle Hin]. auto.
    + cbn. split; [lia | right; by apply list_elem_of_singleton].
    + destruct (IH k prior Hprior) as [Hle Hin].
      assert (Note.updated_at prior ≤ now)%Z
        by (apply Hlast; [done | by apply list_elem_of_singleton]).
      cbn. split; [lia | right; by apply list_elem_of_singleton].
Qed.

(** Under a monotone clock, no stored note is stamped later than the
    reading of the call about to be made: the clock hypothesis of
    [update_note_found] holds along every history. *)
Lemma run_updated_at_le_now (calls : list call) (c : call) (k : string) (n : Note.t) :
  monotone_clock (calls ++ [c]) →
  stored (state (run calls)) k = Some n →
  ∀ now, now ∈ clock_reading c → (Note.updated_at n ≤ now)%Z.
Proof.
  intros (Hmono & Hlast)%monotone_clock_snoc St now Hnow.
  destruct (run_timestamps_ok calls Hmono k n St) as [_ Hin]. by apply Hlast.
Qed.

(** C3.  In the state reached from the empty repository by any sequence
    of [create_note], [get_note], [update_note], [delete_note] and
    [list_notes] calls made under a clock that never runs backwards,
    every stored note has [created_at <= updated_at].  The sequence is
    arbitrary, so the invariant holds after each of its calls. *)
Theorem created_at_le_updated_at (calls : list call) :
  monotone_clock calls →
  ∀ k n, stored (state (run calls)) k = Some n →
    (Note.created_at n ≤ Note.updated_at n)%Z.
Proof.
  intros Hmono k n St. by destruct (run_timestamps_ok calls Hmono k n St).
Qed.

Lemma created_at_le_updated_at_witness :
  let note_id := generate_note_id 7%N in
  let calls := [CreateNote 10%Z 7%N (NoteCreate.Build "Groceries" "Milk, eggs");
                GetNote note_id;
                UpdateNote 12%Z note_id (NoteUpdate.Build None (Some "Milk, eggs, bread"));
                ListNotes] in
  monotone_clock calls ∧
  ∀ k n, stored (state (run calls)) k = Some n →
    (Note.created_at n ≤ Note.updated_at n)%Z.
Proof.
  intros note_id calls.
  assert (monotone_clock calls) as Hmono.
  { unfold monotone_clock. cbn. repeat constructor. lia. }
  split; [exact Hmono |].
  exact (created_at_le_updated_at calls Hmono).
Defined.

(** ** C2: update of a stored note *)

(** C2, as the claim states it, fails when the clock runs backwards: a
    note created at reading 10 and updated at reading 5 gets
    [updated_at] 5, earlier than its prior [updated_at]. *)
Lemma update_note_clock_backwards :
  let note_id := generate_note_id 7%N in
  let s := state (run [CreateNote 10%Z 7%N (NoteCreate.Build "Groceries" "Milk, eggs")]) in
  ∃ prior s' a n,
    stored s note_id = Some prior
    ∧ NoteRepository.update_note 5%Z note_id (NoteUpdate.Build (Some "X") None) s
        = (s', Some a)
    ∧ deref s' a = Some n
    ∧ ¬ (Note.updated_at prior ≤ Note.updated_at n)%Z.
Proof.
  intros note_id s.
  assert (stored s note_id
          = Some (Note.Build note_id "Groceries" "Milk, eggs" 10%Z 10%Z)) as St
    by (vm_compute; reflexivity).
  destruct (update_note_stored 5%Z note_id (NoteUpdate.Build (Some "X") None) s _ St)
    as (s' & a & n & Hupd & Hderef & -> & _).
  eexists _, s', a, _. split_and!; [exact St | exact Hupd | exact Hderef |].
  cbn. lia.
Qed.

(** C2, amended.  In any state, when [note_id] is stored with [prior] the
    note under it, [update_note] returns a reference to a note that is
    [prior] with each provided field replaced and each unset field kept,
    [updated_at] set to the current time, and [id] and [created_at]
    unchanged; the dictionary is the old one with the entry for
    [note_id] rebound to the returned object.  The new [updated_at] is
    no earlier than the prior one when the current time is no earlier
    than it, which is the case along every history made under a clock
    that never runs backwards. *)
Theorem update_note_found
    (now : datetime) (note_id : string) (note_update : NoteUpdate.t)
    (s : State) (prior : Note.t) :
  stored s note_id = Some prior →
  ∃ s' a n,
    NoteRepository.update_note now note_id note_update s = (s', Some a)
    ∧ deref s' a = Some n
    ∧ Note.title n = default (Note.title prior) (NoteUpdate.title note_update)
    ∧ Note.content n = default (Note.content prior) (NoteUpdate.content note_update)
    ∧ Note.updated_at n = now
    ∧ Note.id n = Note.id prior
    ∧ Note.created_at n = Note.created_at prior
    ∧ notes s' = <[note_id := a]> (notes s)
    ∧ stored s' note_id = Some n
    ∧ ((Note.updated_at prior ≤ now)%Z →
       (Note.updated_at prior ≤ Note.updated_at n)%Z)
    ∧ (∀ calls,
         s = state (run calls) →
         monotone_clock (calls ++ [UpdateNote now note_id note_update]) →
         (Note.updated_at prior ≤ Note.updated_at n)%Z).
Proof.
  intros St.
  destruct (update_note_stored now note_id note_update _ _ St)
    as (s' & a & n & Hupd & Hderef & -> & Hnotes & Hst).
  exists s', a. eexists. split_and!; try done. cbn.
  intros calls -> Hmono.
  eapply run_updated_at_le_now; [done | done |].
  by apply list_elem_of_singleton.
Qed.

Lemma update_note_found_witness :
  let note_id := generate_note_id 7%N in
  let calls := [CreateNote 10%Z 7%N (NoteCreate.Build "Groceries" "Milk, eggs")] in
  let note_update := NoteUpdate.Build None (Some "Milk, eggs, bread") in
  let prior := Note.Build note_id "Groceries" "Milk, eggs" 10%Z 10%Z in
  stored (state (run calls)) note_id = Some prior ∧
  (Note.updated_at prior ≤ 12)%Z ∧
  monotone_clock (calls ++ [UpdateNote 12%Z note_id note_update]) ∧
  ∃ s' a n,
    NoteRepository.update_note 12%Z note_id note_update (state (run calls))
      = (s', Some a)
    ∧ deref s' a = Some n
    ∧ Note.title n = "Groceries"
    ∧ Note.content n = "Milk, eggs, bread"
    ∧ Note.updated_at n = 12%Z
    ∧ Note.id n = Note.id prior
    ∧ Note.created_at n = Note.created_at prior
    ∧ notes s' = <[note_id := a]> (notes (state (run calls)))
    ∧ stored s' note_id = Some n
    ∧ (Note.updated_at prior ≤ Note.updated_at n)%Z.
Proof.
  intros note_id calls note_update prior.
  assert (stored (state (run calls)) note_id = Some prior) as St
    by (vm_compute; reflexivity).
  assert (Note.updated_at prior ≤ 12)%Z as Hnow by (vm_compute; discriminate).
  assert (monotone_clock (calls ++ [UpdateNote 12%Z note_id note_update])) as Hmono.
  { unfold monotone_clock. cbn. repeat constructor. lia. }
  split; [exact St |]. split; [exact Hnow |]. split; [exact Hmono |].
  destruct (update_note_found 12%Z note_id note_update (state (run calls)) prior St)
    as (s' & a & n & H1 & H2 & H3 & H4 & H5 & H6 & H7 & H8 & H9 & _ & Hclock).
  exists s', a, n. split_and!; try assumption.
  exact (Hclock calls eq_refl Hmono).
Defined.

(** ** C7: stored titles are never empty *)

(** C7.  In the state reached by any sequence of calls whose
    [create_note] calls carry a non-empty title and whose [update_note]
    calls carry an unset or a non-empty title, every stored note has a
    non-empty title.  The sequence is arbitrary, so the invariant holds
    after each of its calls. *)
Theorem stored_title_nonempty (calls : list call) :
  Forall (λ c, validated c = true) calls →
  ∀ k n, stored (state (run calls)) k = Some n → Note.title n ≠ "".
Proof.
  induction calls as [|c calls IH] using rev_ind.
  - intros _ k n. rewrite run_nil. unfold stored. cbn. by rewrite lookup_empty.
  - rewrite Forall_app, Forall_singleton. intros [Hcalls Hc] k n St.
    rewrite run_snoc in St. specialize (IH Hcalls).
    destruct (stored_effect_inv _ _ _ _ _ (observe_effect (run calls) c)
                (run_well_formed calls) St)
      as [Old | [(now & urandom & nc & -> & V & ->)
               | (now & nu & prior & -> & Hprior & ->)]].
    + by apply (IH k).
    + cbn. by apply min_length_1.
    + cbn in *. unfold NoteUpdate.valid in Hc.
      destruct (NoteUpdate.title nu) as [title|]; cbn.
      * by apply min_length_1.
      * by apply (IH k).
Qed.

Lemma stored_title_nonempty_witness :
  let note_id := generate_note_id 7%N in
  let calls := [CreateNote 10%Z 7%N (NoteCreate.Build "Groceries" "Milk, eggs");
                UpdateNote 12%Z note_id (NoteUpdate.Build None (Some "Milk, eggs, bread"));
                UpdateNote 13%Z note_id (NoteUpdate.Build (Some "Shopping") None)] in
  Forall (λ c, validated c = true) calls ∧
  ∀ k n, stored (state (run calls)) k = Some n → Note.title n ≠ "".
Proof.
  intros note_id calls.
  assert (Forall (λ c, validated c = true) calls) as Hv
    by (repeat constructor).
  split; [exact Hv |].
  exact (stored_title_nonempty calls Hv).
Defined.

(** ** C8: ids that [create_note] never returned *)

(** C8.  After any sequence of calls, an id that no [create_note] call of
    the sequence returned is not a key of the dictionary: [get_note] and
    [update_note] return [None] for it and [delete_note] returns [False],
    all three leaving the state as it is. *)
Theorem never_created_absent (calls : list call) (note_id : string) :
  note_id ∉ created (run calls) →
  let s := state (run calls) in
  notes s !! note_id = None
  ∧ NoteRepository.get_note note_id s = (s, None)
  ∧ (∀ now note_update,
       NoteRepository.update_note now note_id note_update s = (s, None))
  ∧ NoteRepository.delete_note note_id s = (s, false).
Proof.
  intros Hnot s.
  assert (notes s !! note_id = None) as Habs.
  { apply eq_None_not_Some. intros Hsome. by apply Hnot, run_keys_created. }
  split_and!; [done | | |].
  - unfold NoteRepository.get_note. by rewrite Habs.
  - intros now nu. by apply update_note_None.
  - by apply delete_note_false.
Qed.

Lemma never_created_absent_witness :
  let calls := [CreateNote 10%Z 7%N (NoteCreate.Build "Groceries" "Milk, eggs");
                CreateNote 11%Z 8%N (NoteCreate.Build "Todo" "");
                DeleteNote (generate_note_id 7%N)] in
  let s := state (run calls) in
  ("does-not-exist" ∉ created (run calls))
  ∧ notes s !! "does-not-exist" = None
  ∧ NoteRepository.get_note "does-not-exist" s = (s, None)
  ∧ (∀ now note_update,
       NoteRepository.update_note now "does-not-exist" note_update s = (s, None))
  ∧ NoteRepository.delete_note "does-not-exist" s = (s, false).
Proof.
  intros calls s.
  assert ("does-not-exist" ∉ created (run calls)) as Hnot.
  { vm_compute. intros H. repeat (inversion H as [|? ? ? H']; clear H; rename H' into H). }
  split; [exact Hnot |].
  exact (never_created_absent calls "does-not-exist" Hnot).
Defined.

(** ** C6: listing *)

Lemma list_notes_elem (s : State) (a : addr) :
  a ∈ (NoteRepository.list_notes s).2 ↔ ∃ k, notes s !! k = Some a.
Proof.
  cbn. rewrite list_elem_of_fmap. split.
  - intros ([k b] & -> & Hin). exists k. by apply elem_of_map_to_list.
  - intros (k & Hk). exists (k, a). split; [done | by apply elem_of_map_to_list].
Qed.

Lemma list_notes_length (s : State) :
  length (NoteRepository.list_notes s).2 = size (notes s).
Proof. cbn. by rewrite length_fmap, length_map_to_list. Qed.

Lemma entries_ids (s : State) (l : list (string * addr)) :
  well_formed s →
  Forall (λ ka, notes s !! ka.1 = Some ka.2) l →
  omap (λ a, Note.id <$> deref s a) l.*2 = l.*1.
Proof.
  intros WF. induction l as [|[k a] l IH]; [done |].
  rewrite Forall_cons. cbn [fst snd]. intros [Hka Hl].
  destruct (WF k a Hka) as (n & Hn & Hid).
  rewrite !fmap_cons. cbn [fst snd omap list_omap].
  unfold deref at 1. rewrite Hn. cbn [fmap option_fmap option_map].
  rewrite Hid. f_equal. by apply IH.
Qed.

(** The ids of the listed notes are the keys of the dictionary, entry by
    entry. *)
Lemma list_notes_ids (s : State) :
  well_formed s →
  omap (λ a, Note.id <$> deref s a) (NoteRepository.list_notes s).2
    = (map_to_list (notes s)).*1.
Proof.
  intros WF. apply entries_ids; [done |].
  apply Forall_forall. intros ka. apply elem_of_map_to_list'.
Qed.

(** With pairwise distinct generated ids, the dictionary holds one entry
    per returned [create_note], less one per successful [delete_note]. *)
Lemma run_count (calls : list call) :
  NoDup (created (run calls)) →
  size (notes (state (run calls))) + deleted (run calls) = length (created (run calls)).
Proof.
  induction calls as [|c calls IH] using rev_ind.
  - intros _. rewrite run_nil. cbn. by rewrite map_size_empty.
  - rewrite run_snoc.
    pose proof (run_keys_created calls) as Hkeys.
    destruct (observe_effect (run calls) c)
      as [ | now urandom nc V note_id note | now note_id nu a note L D updated
         | note_id a L ]; cbn [state notes created deleted]; [done | | |].
    + rewrite NoDup_app, length_app. intros (Hnd & Hfresh & _). cbn.
      rewrite map_size_insert_None; [specialize (IH Hnd); lia |].
      apply eq_None_not_Some. intros Hsome%Hkeys.
      apply (Hfresh _ Hsome). by apply list_elem_of_singleton.
    + intros Hnd. rewrite map_size_insert_Some by (by eexists). by apply IH.
    + intros Hnd. rewrite map_size_delete_Some by (by eexists).
      specialize (IH Hnd).
      assert (size (notes (state (run calls))) ≠ 0).
      { intros Hz%map_size_empty_inv. rewrite Hz, lookup_empty in L. done. }
      lia.
Qed.

Lemma list_notes_later (later : list call) (s : State) (a : addr) :
  well_formed s →
  a ∈ (NoteRepository.list_notes s).2 →
  deref (exec_all later s) a = deref s a.
Proof.
  intros WF (k & Hk)%list_notes_elem.
  destruct (WF k a Hk) as (n & Hn & _).
  unfold deref at 2. rewrite Hn. by apply exec_all_heap.
Qed.

(** C6, as the claim states it, fails when two [create_note] calls
    generate the same id: the second rebinds the entry of the first, so
    after two creates and no delete the listing has one note, not two. *)
Lemma list_notes_count_collision :
  let calls := [CreateNote 10%Z 7%N (NoteCreate.Build "Groceries" "Milk, eggs");
                CreateNote 11%Z 7%N (NoteCreate.Build "Todo" "")] in
  let h := run calls in
  length (created h) = 2
  ∧ deleted h = 0
  ∧ length (NoteRepository.list_notes (state h)).2 = 1
  ∧ length (NoteRepository.list_notes (state h)).2 ≠ length (created h) - deleted h.
Proof. vm_compute. split_and!; try reflexivity. discriminate. Qed.

(** C6, amended.  After any sequence of calls, [list_notes] leaves the
    state as it is and returns the objects the dictionary holds, no more
    and no less; their ids are the keys of the dictionary; when the ids
    generated so far are pairwise distinct, their number is the number of
    notes [create_note] has returned minus the number of [delete_note]
    calls that returned [True]; and whatever calls are made afterwards,
    every reference in the returned list still designates the note it
    designated when the list was returned. *)
Theorem list_notes_snapshot (calls : list call) :
  let h := run calls in
  let s := state h in
  let l := (NoteRepository.list_notes s).2 in
  (NoteRepository.list_notes s).1 = s
  ∧ (∀ a, a ∈ l ↔ ∃ k, notes s !! k = Some a)
  ∧ omap (λ a, Note.id <$> deref s a) l = (map_to_list (notes s)).*1
  ∧ (NoDup (created h) →
       length l = length (created h) - deleted h ∧ deleted h ≤ length (created h))
  ∧ (∀ later a, a ∈ l → deref (exec_all later s) a = deref s a).
Proof.
  intros h s l. split_and!.
  - done.
  - apply list_notes_elem.
  - apply list_notes_ids, run_well_formed.
  - intros Hnd. pose proof (run_count calls Hnd) as Hc.
    unfold l. rewrite list_notes_length. fold h s in Hc. lia.
  - intros later a. apply list_notes_later, run_well_formed.
Qed.

Lemma list_notes_snapshot_witness :
  let calls := [CreateNote 10%Z 7%N (NoteCreate.Build "Groceries" "Milk, eggs");
                CreateNote 11%Z 8%N (NoteCreate.Build "Todo" "");
                CreateNote 12%Z 9%N (NoteCreate.Build "Ideas" "");
                DeleteNote (generate_note_id 8%N);
                DeleteNote (generate_note_id 8%N)] in
  NoDup (created (run calls))
  ∧ length (NoteRepository.list_notes (state (run calls))).2 = 2.
Proof.
  intros calls.
  assert (NoDup (created (run calls))) as Hnd
    by (apply (bool_decide_unpack _); vm_compute; exact I).
  split; [exact Hnd |].
  destruct (list_notes_snapshot calls) as (_ & _ & _ & Hcount & _).
  destruct (Hcount Hnd) as [-> _]. reflexivity.
Defined.

(** ** C10: frame *)

(** Along a history whose generated ids are pairwise distinct, the id a
    [create_note] generates is not yet a key of the dictionary. *)
Lemma create_note_fresh (calls : list call) now urandom note_create :
  NoteCreate.valid note_create = true →
  NoDup (created (run (calls ++ [CreateNote now urandom note_create]))) →
  notes (state (run calls)) !! generate_note_id urandom = None.
Proof.
  intros V. rewrite run_snoc. unfold observe, exec.
  rewrite create_note_Return by done. cbn [heap]. rewrite heap_alloc_new.
  cbn [created Note.id]. rewrite NoDup_app. intros (_ & Hfresh & _).
  apply eq_None_not_Some. intros Hsome%run_keys_created.
  apply (Hfresh _ Hsome). by apply list_elem_of_singleton.
Qed.

(** C10, as the claim states it, fails for [create_note] when the
    generated id is already a key: the entry stored under it is rebound
    to the new object, and the note found under it is the new one. *)
Lemma create_note_rebinds :
  let k := generate_note_id 7%N in
  let s := state (run [CreateNote 10%Z 7%N (NoteCreate.Build "Groceries" "Milk, eggs")]) in
  let s' := (NoteRepository.create_note 11%Z 7%N (NoteCreate.Build "Todo" "") s).1 in
  notes s !! k = Some 0
  ∧ notes s' !! k = Some 1
  ∧ notes s' !! k ≠ notes s !! k
  ∧ stored s k = Some (Note.Build k "Groceries" "Milk, eggs" 10%Z 10%Z)
  ∧ stored s' k = Some (Note.Build k "Todo" "" 11%Z 11%Z).
Proof.
  intros k s s'.
  assert (notes s !! k = Some 0) as H0 by (vm_compute; reflexivity).
  assert (notes s' !! k = Some 1) as H1 by (vm_compute; reflexivity).
  split_and!; [exact H0 | exact H1 | | vm_compute; reflexivity | vm_compute; reflexivity].
  intros E. pose proof (eq_trans (eq_sym H1) (eq_trans E H0)) as Hsame.
  discriminate Hsame.
Qed.

(** C10, amended.  Each operation touches at most its own entry.
    [create_note] leaves the entries under every key other than the
    generated id as they are, hence all previous entries when the
    generated id is new to the dictionary; [update_note] and
    [delete_note] leave the entries under every other key as they are;
    [get_note] and [list_notes] leave the whole state as it is; and no
    call changes the object at an address that is already allocated. *)
Theorem frame (s : State) :
  (∀ now urandom note_create k,
     k ≠ generate_note_id urandom →
     notes (NoteRepository.create_note now urandom note_create s).1 !! k = notes s !! k)
  ∧ (∀ now urandom note_create k a,
       notes s !! generate_note_id urandom = None →
       notes s !! k = Some a →
       notes (NoteRepository.create_note now urandom note_create s).1 !! k = Some a)
  ∧ (∀ now note_id note_update k,
       k ≠ note_id →
       notes (NoteRepository.update_note now note_id note_update s).1 !! k = notes s !! k)
  ∧ (∀ note_id k,
       k ≠ note_id →
       notes (NoteRepository.delete_note note_id s).1 !! k = notes s !! k)
  ∧ (∀ note_id, (NoteRepository.get_note note_id s).1 = s)
  ∧ (NoteRepository.list_notes s).1 = s
  ∧ (∀ c a n, deref s a = Some n → deref (exec c s).1 a = Some n).
Proof.
  assert (∀ now urandom note_create k,
            k ≠ generate_note_id urandom →
            notes (NoteRepository.create_note now urandom note_create s).1 !! k
              = notes s !! k) as Hcreate.
  { intros now urandom nc k Hk.
    destruct (NoteCreate.valid nc) eqn:V.
    - rewrite create_note_Return by done. cbn. by rewrite lookup_insert_ne.
    - by rewrite create_note_Raise. }
  split_and!; try done.
  - intros now urandom nc k a Hfresh Hk. rewrite Hcreate; [done | congruence].
  - intros now note_id nu k Hk.
    destruct (notes s !! note_id) as [a|] eqn:L.
    + destruct (heap s !! a) as [note|] eqn:D.
      * rewrite (update_note_Some _ _ _ _ a note) by done.
        cbn. by rewrite lookup_insert_ne.
      * unfold NoteRepository.update_note. by rewrite L, D.
    + by rewrite update_note_None.
  - intros note_id k Hk. cbn. by rewrite lookup_delete_ne.
  - intros c a n. apply exec_heap.
Qed.

Lemma frame_witness :
  let k := generate_note_id 7%N in
  let other := generate_note_id 8%N in
  let s := state (run [CreateNote 10%Z 7%N (NoteCreate.Build "Groceries" "Milk, eggs");
                       CreateNote 11%Z 8%N (NoteCreate.Build "Todo" "")]) in
  let kept := Note.Build k "Groceries" "Milk, eggs" 10%Z 10%Z in
  (k ≠ generate_note_id 9%N)
  ∧ notes s !! generate_note_id 9%N = None
  ∧ notes s !! k = Some 0
  ∧ k ≠ other
  ∧ notes s !! other = Some 1
  ∧ deref s 0 = Some kept
  ∧ notes (NoteRepository.create_note 12%Z 9%N (NoteCreate.Build "Ideas" "") s).1 !! k
      = notes s !! k
  ∧ notes (NoteRepository.create_note 12%Z 9%N (NoteCreate.Build "Ideas" "") s).1 !! k
      = Some 0
  ∧ notes (NoteRepository.update_note 12%Z other
             (NoteUpdate.Build (Some "X") None) s).1 !! k = notes s !! k
  ∧ notes (NoteRepository.delete_note other s).1 !! k = notes s !! k
  ∧ deref (exec (UpdateNote 12%Z k (NoteUpdate.Build (Some "Shopping") None)) s).1 0
      = Some kept
  ∧ deref (exec (DeleteNote k) s).1 0 = Some kept.
Proof.
  intros k other s kept.
  destruct (frame s) as (Hcreate & Hfresh & Hupdate & Hdelete & _ & _ & Hheap).
  assert (k ≠ generate_note_id 9%N) as Hne9 by (vm_compute; discriminate).
  assert (notes s !! generate_note_id 9%N = None) as Hnew by (vm_compute; reflexivity).
  assert (notes s !! k = Some 0) as Hk by (vm_compute; reflexivity).
  assert (k ≠ other) as Hne by (vm_compute; discriminate).
  assert (notes s !! other = Some 1) as Hother by (vm_compute; reflexivity).
  assert (deref s 0 = Some kept) as Hd by (vm_compute; reflexivity).
  split_and!.
  - exact Hne9.
  - exact Hnew.
  - exact Hk.
  - exact Hne.
  - exact Hother.
  - exact Hd.
  - apply Hcreate. exact Hne9.
  - apply Hfresh; [exact Hnew | exact Hk].
  - apply Hupdate. exact Hne.
  - apply Hdelete. exact Hne.
  - apply Hheap. exact Hd.
  - apply Hheap. exact Hd.
Defined.

(** ** C9: the DELETE handler *)

(** What the handler does, for every id and state: it raises the 404
    [HTTPException] with detail ["Note not found"] exactly when the id is
    not stored, and then the state is unchanged; otherwise it removes the
    entry and returns the response built by
    [JSONResponse(status_code=204, content=None)]. *)
Lemma delete_handler (note_id : string) (s : State) :
  (notes s !! note_id = None →
     Main.delete_note note_id s = (s, Raise (HTTPException 404 "Note not found")))
  ∧ (is_Some (notes s !! note_id) →
       Main.delete_note note_id s =
         (mkState (heap s) (delete note_id (notes s)),
          Return (Main.JSONResponse_init 204 Main.PyNone)))
  ∧ (notes s !! note_id = None ↔
       ∃ s' status_code detail,
         Main.delete_note note_id s = (s', Raise (HTTPException status_code detail))).
Proof.
  unfold Main.delete_note.
  destruct (notes s !! note_id) as [a|] eqn:L.
  - rewrite (delete_note_true _ _ a) by done. cbn.
    split_and!; [done | done |]. split; [done |]. by intros (? & ? & ? & ?).
  - rewrite delete_note_false by done. cbn.
    split_and!; [done | by intros [? ?] |]. split; [| done]. by eexists _, _, _.
Qed.

(** C9, at a stored id.  After one note has been created, the DELETE
    handler called with its id removes the entry and returns a response
    with status 204, but the body of that response is the four characters
    [null], the JSON rendering of [None]: it is not empty. *)
Theorem delete_handler_body_null :
  let note_id := generate_note_id 7%N in
  let s := state (run [CreateNote 10%Z 7%N (NoteCreate.Build "Groceries" "Milk, eggs")]) in
  ∃ s' response,
    Main.delete_note note_id s = (s', Return response)
    ∧ notes s' !! note_id = None
    ∧ Main.status_code response = 204%Z
    ∧ Main.body response = "null"
    ∧ Main.body response ≠ "".
Proof.
  intros note_id s.
  destruct (delete_handler note_id s) as (_ & Hpresent & _).
  eexists _, _. split; [apply Hpresent; vm_compute; eauto |].
  split_and!; [apply lookup_delete_eq | done | done | done].
Qed.

(** * Further properties of the repository *)

(** ** Entries and the objects they designate *)

Lemma run_entry_stored (calls : list call) (k : string) (a : addr) :
  notes (state (run calls)) !! k = Some a →
  ∃ n, deref (state (run calls)) a = Some n
       ∧ stored (state (run calls)) k = Some n
       ∧ Note.id n = k.
Proof.
  intros Hk. destruct (run_well_formed calls k a Hk) as (n & Hn & Hid).
  exists n. split_and!; [done | | done].
  apply bind_Some. by exists a.
Qed.

(** X1.  After any sequence of calls, every dictionary entry designates a
    live object, and the note found under a key carries that key as its
    [id]. *)
Theorem entry_id_is_key (calls : list call) (k : string) (a : addr) :
  notes (state (run calls)) !! k = Some a →
  ∃ n, deref (state (run calls)) a = Some n
       ∧ stored (state (run calls)) k = Some n
       ∧ Note.id n = k.
Proof.
  intros Hk. destruct (run_well_formed calls k a Hk) as (n & Hn & Hid).
  exists n. split_and!; [exact Hn | | exact Hid].
  apply bind_Some. exists a. by split.
Qed.

Lemma entry_id_is_key_witness :
  let k := generate_note_id 7%N in
  let calls := [CreateNote 10%Z 7%N (NoteCreate.Build "Groceries" "Milk, eggs");
                UpdateNote 12%Z k (NoteUpdate.Build (Some "Shopping") None)] in
  notes (state (run calls)) !! k = Some 1 ∧
  ∃ n, deref (state (run calls)) 1 = Some n
       ∧ stored (state (run calls)) k = Some n
       ∧ Note.id n = k.
Proof.
  intros k calls.
  assert (notes (state (run calls)) !! k = Some 1) as Hk by (vm_compute; reflexivity).
  split; [exact Hk |].
  exact (entry_id_is_key calls k 1 Hk).
Defined.

(** X2.  After any sequence of calls, [list_notes] returns no object
    twice, and no two of the listed notes have the same id. *)
Theorem list_notes_NoDup (calls : list call) :
  let s := state (run calls) in
  let l := (NoteRepository.list_notes s).2 in
  NoDup l ∧ NoDup (omap (λ a, Note.id <$> deref s a) l).
Proof.
  intros s l. pose proof (run_well_formed calls) as WF. fold s in WF. split.
  - unfold l. cbn. apply NoDup_fmap_2_strong; [| apply NoDup_map_to_list].
    intros [k1 a1] [k2 a2] H1%elem_of_map_to_list H2%elem_of_map_to_list.
    cbn. intros <-.
    destruct (WF k1 a1 H1) as (n1 & Hn1 & Hid1).
    destruct (WF k2 a1 H2) as (n2 & Hn2 & Hid2).
    f_equal. congruence.
  - unfold l. rewrite list_notes_ids by done. apply NoDup_fst_map_to_list.
Qed.

(** ** Counting *)

(** X3.  After any sequence of calls, whether or not generated ids
    collide, the number of stored notes plus the number of successful
    deletes is at most the number of notes [create_note] has returned. *)
Theorem stored_count_bound (calls : list call) :
  size (notes (state (run calls))) + deleted (run calls)
    ≤ length (created (run calls)).
Proof.
  induction calls as [|c calls IH] using rev_ind.
  - rewrite run_nil. cbn. by rewrite map_size_empty.
  - rewrite run_snoc.
    destruct (observe_effect (run calls) c)
      as [ | now urandom nc V note_id note | now note_id nu a note L D updated
         | note_id a L ]; cbn [state notes created deleted]; [done | | |].
    + rewrite length_app, map_size_insert. cbn.
      destruct (notes (state (run calls)) !! note_id); cbn; lia.
    + by rewrite map_size_insert_Some by (by eexists).
    + rewrite map_size_delete_Some by (by eexists).
      assert (size (notes (state (run calls))) ≠ 0).
      { intros Hz%map_size_empty_inv. rewrite Hz, lookup_empty in L. done. }
      lia.
Qed.

(** ** Create *)

(** X4.  [create_note] called with an empty title raises the validation
    error of the [Note] constructor, and the state is the one it was
    called on: nothing is stored. *)
Theorem create_note_empty_title
    (now : datetime) (urandom : N) (note_create : NoteCreate.t) (s : State) :
  NoteCreate.title note_create = "" →
  NoteRepository.create_note now urandom note_create s = (s, Raise ValidationError).
Proof.
  intros E. apply create_note_Raise. unfold NoteCreate.valid. by rewrite E.
Qed.

Lemma create_note_empty_title_witness :
  NoteCreate.title (NoteCreate.Build "" "Milk, eggs") = "" ∧
  NoteRepository.create_note 10%Z 7%N (NoteCreate.Build "" "Milk, eggs")
    NoteRepository.init = (NoteRepository.init, Raise ValidationError).
Proof.
  split; [reflexivity |].
  apply (create_note_empty_title 10%Z 7%N (NoteCreate.Build "" "Milk, eggs")
           NoteRepository.init).
  reflexivity.
Defined.

(** X5.  Create, then delete: when the generated id is new to the
    dictionary, deleting the note just created returns [True] and leaves
    the dictionary exactly as it was before the create. *)
Theorem create_then_delete
    (now : datetime) (urandom : N) (note_create : NoteCreate.t) (s : State) :
  NoteCreate.valid note_create = true →
  notes s !! generate_note_id urandom = None →
  let s1 := (NoteRepository.create_note now urandom note_create s).1 in
  let r := NoteRepository.delete_note (generate_note_id urandom) s1 in
  r.2 = true ∧ notes r.1 = notes s.
Proof.
  intros V Hfresh. rewrite create_note_Return by done. cbn.
  rewrite lookup_insert_eq. split; [done |]. by apply delete_insert_id.
Qed.

Lemma create_then_delete_witness :
  let note_create := NoteCreate.Build "Groceries" "Milk, eggs" in
  let s := NoteRepository.init in
  let s1 := (NoteRepository.create_note 10%Z 7%N note_create s).1 in
  let r := NoteRepository.delete_note (generate_note_id 7%N) s1 in
  NoteCreate.valid note_create = true ∧
  notes s !! generate_note_id 7%N = None ∧
  r.2 = true ∧ notes r.1 = notes s.
Proof.
  intros note_create s s1 r.
  split; [reflexivity |]. split; [reflexivity |].
  apply (create_then_delete 10%Z 7%N note_create s); reflexivity.
Defined.

(** X6.  [create_note] does not look for the generated id in the
    dictionary: when that id is already a key, the entry is rebound to
    the new note, the note stored under the id is the new one, and the
    number of stored notes does not change. *)
Theorem create_note_collision
    (now : datetime) (urandom : N) (note_create : NoteCreate.t) (s : State) (a : addr) :
  NoteCreate.valid note_create = true →
  notes s !! generate_note_id urandom = Some a →
  let s' := (NoteRepository.create_note now urandom note_create s).1 in
  size (notes s') = size (notes s)
  ∧ stored s' (generate_note_id urandom)
      = Some (Note.Build (generate_note_id urandom) (NoteCreate.title note_create)
                (NoteCreate.content note_create) now now)
  ∧ dom (notes s') = dom (notes s).
Proof.
  intros V Hk. rewrite create_note_Return by done. cbn [fst notes heap].
  split_and!.
  - apply map_size_insert_Some. by eexists.
  - unfold stored. cbn [notes heap]. rewrite lookup_insert_eq. apply heap_alloc_new.
  - apply dom_insert_lookup_L. by eexists.
Qed.

Lemma create_note_collision_witness :
  let first := NoteCreate.Build "Groceries" "Milk, eggs" in
  let second := NoteCreate.Build "Todo" "" in
  let s := (NoteRepository.create_note 10%Z 7%N first NoteRepository.init).1 in
  let s' := (NoteRepository.create_note 11%Z 7%N second s).1 in
  NoteCreate.valid second = true ∧
  notes s !! generate_note_id 7%N = Some 0 ∧
  size (notes s') = size (notes s)
  ∧ stored s' (generate_note_id 7%N)
      = Some (Note.Build (generate_note_id 7%N) "Todo" "" 11%Z 11%Z)
  ∧ dom (notes s') = dom (notes s).
Proof.
  intros first second s s'.
  assert (notes s !! generate_note_id 7%N = Some 0) as Hk by (vm_compute; reflexivity).
  split; [reflexivity |]. split; [exact Hk |].
  exact (create_note_collision 11%Z 7%N second s 0 eq_refl Hk).
Defined.

(** ** Update *)

(** X7.  [update_note] never changes which ids are stored, whether the id
    is found or not: the key set and the number of notes are the same
    before and after. *)
Theorem update_note_keys
    (now : datetime) (note_id : string) (note_update : NoteUpdate.t) (s : State) :
  let s' := (NoteRepository.update_note now note_id note_update s).1 in
  dom (notes s') = dom (notes s) ∧ size (notes s') = size (notes s).
Proof.
  cbn zeta. unfold NoteRepository.update_note.
  destruct (notes s !! note_id) as [a|] eqn:L; [| done].
  destruct (heap s !! a) as [note|] eqn:D; [| done]. cbn. split.
  - apply dom_insert_lookup_L. by eexists.
  - apply map_size_insert_Some. by eexists.
Qed.

(** X8.  Two updates of the same stored note compose field by field: a
    field takes the value of the later update that provides it, else of
    the earlier one, else the prior value; [id] and [created_at] are the
    prior ones and [updated_at] is the time of the second update. *)
Theorem update_note_twice
    (now1 now2 : datetime) (k : string) (u1 u2 : NoteUpdate.t)
    (s : State) (prior : Note.t) :
  stored s k = Some prior →
  let s1 := (NoteRepository.update_note now1 k u1 s).1 in
  let s2 := (NoteRepository.update_note now2 k u2 s1).1 in
  stored s2 k =
    Some (Note.Build (Note.id prior)
            (default (default (Note.title prior) (NoteUpdate.title u1))
               (NoteUpdate.title u2))
            (default (default (Note.content prior) (NoteUpdate.content u1))
               (NoteUpdate.content u2))
            (Note.created_at prior) now2).
Proof.
  intros St s1 s2.
  destruct (update_note_stored now1 k u1 s prior St)
    as (s1' & a1 & n1 & E1 & _ & -> & _ & St1).
  assert (s1 = s1') as -> by (unfold s1; by rewrite E1).
  destruct (update_note_stored now2 k u2 s1' _ St1)
    as (s2' & a2 & n2 & E2 & _ & -> & _ & St2).
  assert (s2 = s2') as -> by (unfold s2; by rewrite E2).
  exact St2.
Qed.

Lemma update_note_twice_witness :
  let k := generate_note_id 7%N in
  let s := (NoteRepository.create_note 10%Z 7%N
              (NoteCreate.Build "Groceries" "Milk, eggs") NoteRepository.init).1 in
  let prior := Note.Build k "Groceries" "Milk, eggs" 10%Z 10%Z in
  let s1 := (NoteRepository.update_note 11%Z k
               (NoteUpdate.Build (Some "Shopping") (Some "Milk")) s).1 in
  let s2 := (NoteRepository.update_note 12%Z k
               (NoteUpdate.Build None (Some "Milk, eggs, bread")) s1).1 in
  stored s k = Some prior ∧
  stored s2 k = Some (Note.Build k "Shopping" "Milk, eggs, bread" 10%Z 12%Z).
Proof.
  intros k s prior s1 s2.
  assert (stored s k = Some prior) as St by (vm_compute; reflexivity).
  split; [exact St |].
  exact (update_note_twice 11%Z 12%Z k
           (NoteUpdate.Build (Some "Shopping") (Some "Milk"))
           (NoteUpdate.Build None (Some "Milk, eggs, bread")) s prior St).
Defined.

(** X9.  An update that provides neither field still takes effect: the
    stored note keeps its [id], [title], [content] and [created_at], and
    its [updated_at] becomes the current time. *)
Theorem update_note_no_fields
    (now : datetime) (k : string) (s : State) (prior : Note.t) :
  stored s k = Some prior →
  stored (NoteRepository.update_note now k (NoteUpdate.Build None None) s).1 k
    = Some (Note.Build (Note.id prior) (Note.title prior) (Note.content prior)
              (Note.created_at prior) now).
Proof.
  intros St.
  destruct (update_note_stored now k (NoteUpdate.Build None None) s prior St)
    as (s' & a & n & E & _ & -> & _ & St').
  by rewrite E.
Qed.

Lemma update_note_no_fields_witness :
  let k := generate_note_id 7%N in
  let s := (NoteRepository.create_note 10%Z 7%N
              (NoteCreate.Build "Groceries" "Milk, eggs") NoteRepository.init).1 in
  stored s k = Some (Note.Build k "Groceries" "Milk, eggs" 10%Z 10%Z) ∧
  stored (NoteRepository.update_note 12%Z k (NoteUpdate.Build None None) s).1 k
    = Some (Note.Build k "Groceries" "Milk, eggs" 10%Z 12%Z).
Proof.
  intros k s.
  assert (stored s k = Some (Note.Build k "Groceries" "Milk, eggs" 10%Z 10%Z)) as St
    by (vm_compute; reflexivity).
  split; [exact St |].
  exact (update_note_no_fields 12%Z k s _ St).
Defined.

(** ** What a stored note keeps along a history *)

Lemma keeps_create (k : string) now urandom note_create :
  keeps k (CreateNote now urandom note_create) = true → generate_note_id urandom ≠ k.
Proof. cbn. rewrite negb_true_iff. apply String.eqb_neq. Qed.

Lemma keeps_delete (k note_id : string) :
  keeps k (DeleteNote note_id) = true → note_id ≠ k.
Proof. cbn. rewrite negb_true_iff. apply String.eqb_neq. Qed.

Lemma stored_effect_fwd (h h' : History) (c : call) (k : string) (n : Note.t) :
  effect h c h' →
  well_formed (state h) →
  keeps k c = true →
  stored (state h) k = Some n →
  stored (state h') k = Some n
  ∨ (∃ now nu,
       c = UpdateNote now k nu
       ∧ stored (state h') k
           = Some (Note.Build (Note.id n)
                     (default (Note.title n) (NoteUpdate.title nu))
                     (default (Note.content n) (NoteUpdate.content nu))
                     (Note.created_at n) now)).
Proof.
  unfold stored.
  intros [ | now urandom nc V note_id note | now note_id nu a note L D updated
         | note_id a L ] WF Hkeep (b & Hk & Hb)%bind_Some;
    cbn [state notes heap].
  - left. apply bind_Some. by exists b.
  - apply keeps_create in Hkeep. left. apply bind_Some. exists b.
    split; [by rewrite lookup_insert_ne | by apply heap_alloc_old].
  - destruct (decide (note_id = k)) as [-> | Hne].
    + right. exists now, nu. split; [done |].
      rewrite lookup_insert_eq. cbn.
      pose proof (eq_trans (eq_sym L) Hk) as [= ->].
      pose proof (eq_trans (eq_sym D) Hb) as [= ->].
      apply heap_alloc_new.
    + left. apply bind_Some. exists b.
      split; [by rewrite lookup_insert_ne | by apply heap_alloc_old].
  - apply keeps_delete in Hkeep. left. apply bind_Some. exists b.
    split; [by rewrite lookup_delete_ne | done].
Qed.

Lemma stored_later (calls later : list call) (k : string) (n : Note.t) :
  forallb (keeps k) later = true →
  stored (state (run calls)) k = Some n →
  ∃ n', stored (state (run (calls ++ later))) k = Some n'
        ∧ Note.id n' = Note.id n
        ∧ Note.created_at n' = Note.created_at n
        ∧ (monotone_clock (calls ++ later) →
           (Note.updated_at n ≤ Note.updated_at n')%Z).
Proof.
  intros Hkeep St. induction later as [|c later IH] using rev_ind.
  - rewrite app_nil_r. exists n. split_and!; try done; lia.
  - rewrite forallb_app in Hkeep. cbn [forallb] in Hkeep.
    apply andb_true_iff in Hkeep as [Hlater [Hc _]%andb_true_iff].
    destruct (IH Hlater) as (n1 & St1 & Hid & Hcr & Hup).
    rewrite app_assoc, run_snoc.
    destruct (stored_effect_fwd _ _ _ _ _
                (observe_effect (run (calls ++ later)) c)
                (run_well_formed (calls ++ later)) Hc St1)
      as [Same | (now & nu & -> & Upd)].
    + exists n1. split_and!; try done.
      intros [Hmono _]%monotone_clock_snoc. by apply Hup.
    + eexists. split; [exact Upd |]. cbn. split_and!; try done.
      intros Hmono. pose proof Hmono as [Hmono' _]%monotone_clock_snoc.
      specialize (Hup Hmono').
      assert (Note.updated_at n1 ≤ now)%Z.
      { eapply (run_updated_at_le_now (calls ++ later)); [done | done |].
        by apply list_elem_of_singleton. }
      lia.
Qed.

(** X10.  Once a note is stored under an id, then through any later
    calls other than a [delete_note] of that id or a [create_note] that
    generates the same id again, a note is still stored under it, with
    the same [id] and the same [created_at]. *)
Theorem id_and_created_at_kept (calls later : list call) (k : string) (n : Note.t) :
  forallb (keeps k) later = true →
  stored (state (run calls)) k = Some n →
  ∃ n', stored (state (run (calls ++ later))) k = Some n'
        ∧ Note.id n' = Note.id n
        ∧ Note.created_at n' = Note.created_at n.
Proof.
  intros Hkeep St.
  destruct (stored_later calls later k n Hkeep St) as (n' & ? & ? & ? & _).
  by exists n'.
Qed.

Lemma id_and_created_at_kept_witness :
  let k := generate_note_id 7%N in
  let calls := [CreateNote 10%Z 7%N (NoteCreate.Build "Groceries" "Milk, eggs")] in
  let later := [CreateNote 11%Z 8%N (NoteCreate.Build "Todo" "");
                UpdateNote 12%Z k (NoteUpdate.Build (Some "Shopping") None);
                DeleteNote (generate_note_id 8%N);
                ListNotes] in
  let n := Note.Build k "Groceries" "Milk, eggs" 10%Z 10%Z in
  forallb (keeps k) later = true ∧
  stored (state (run calls)) k = Some n ∧
  ∃ n', stored (state (run (calls ++ later))) k = Some n'
        ∧ Note.id n' = Note.id n
        ∧ Note.created_at n' = Note.created_at n.
Proof.
  intros k calls later n.
  assert (forallb (keeps k) later = true) as Hkeep by (vm_compute; reflexivity).
  assert (stored (state (run calls)) k = Some n) as St by (vm_compute; reflexivity).
  split; [exact Hkeep |]. split; [exact St |].
  exact (id_and_created_at_kept calls later k n Hkeep St).
Defined.

(** X11.  Under a clock that never runs backwards, the [updated_at] of
    the note stored under an id never decreases, as long as the id is
    neither deleted nor generated again. *)
Theorem updated_at_never_decreases
    (calls later : list call) (k : string) (n : Note.t) :
  monotone_clock (calls ++ later) →
  forallb (keeps k) later = true →
  stored (state (run calls)) k = Some n →
  ∃ n', stored (state (run (calls ++ later))) k = Some n'
        ∧ (Note.updated_at n ≤ Note.updated_at n')%Z.
Proof.
  intros Hmono Hkeep St.
  destruct (stored_later calls later k n Hkeep St) as (n' & ? & _ & _ & Hup).
  exists n'. split; [done | by apply Hup].
Qed.

Lemma updated_at_never_decreases_witness :
  let k := generate_note_id 7%N in
  let calls := [CreateNote 10%Z 7%N (NoteCreate.Build "Groceries" "Milk, eggs")] in
  let later := [UpdateNote 12%Z k (NoteUpdate.Build (Some "Shopping") None);
                GetNote k;
                UpdateNote 12%Z k (NoteUpdate.Build None (Some "Milk"))] in
  let n := Note.Build k "Groceries" "Milk, eggs" 10%Z 10%Z in
  monotone_clock (calls ++ later) ∧
  forallb (keeps k) later = true ∧
  stored (state (run calls)) k = Some n ∧
  ∃ n', stored (state (run (calls ++ later))) k = Some n'
        ∧ (Note.updated_at n ≤ Note.updated_at n')%Z.
Proof.
  intros k calls later n.
  assert (monotone_clock (calls ++ later)) as Hmono.
  { unfold monotone_clock. cbn. repeat constructor; lia. }
  assert (forallb (keeps k) later = true) as Hkeep by (vm_compute; reflexivity).
  assert (stored (state (run calls)) k = Some n) as St by (vm_compute; reflexivity).
  split; [exact Hmono |]. split; [exact Hkeep |]. split; [exact St |].
  exact (updated_at_never_decreases calls later k n Hmono Hkeep St).
Defined.

(** ** The listing after a change *)

(** X12.  After a [create_note] whose generated id is new to the
    dictionary, the listing is the previous listing with the returned
    object added, up to order. *)
Theorem list_notes_after_create
    (now : datetime) (urandom : N) (note_create : NoteCreate.t) (s : State) :
  NoteCreate.valid note_create = true →
  notes s !! generate_note_id urandom = None →
  let r := NoteRepository.create_note now urandom note_create s in
  ∃ a, r.2 = Return a
       ∧ (NoteRepository.list_notes r.1).2 ≡ₚ a :: (NoteRepository.list_notes s).2.
Proof.
  intros V Hfresh. rewrite create_note_Return by done. cbn.
  eexists. split; [done |]. by rewrite map_to_list_insert.
Qed.

Lemma list_notes_after_create_witness :
  let note_create := NoteCreate.Build "Todo" "" in
  let s := (NoteRepository.create_note 10%Z 7%N
              (NoteCreate.Build "Groceries" "Milk, eggs") NoteRepository.init).1 in
  let r := NoteRepository.create_note 11%Z 8%N note_create s in
  NoteCreate.valid note_create = true ∧
  notes s !! generate_note_id 8%N = None ∧
  ∃ a, r.2 = Return a
       ∧ (NoteRepository.list_notes r.1).2 ≡ₚ a :: (NoteRepository.list_notes s).2.
Proof.
  intros note_create s r.
  assert (notes s !! generate_note_id 8%N = None) as Hfresh by (vm_compute; reflexivity).
  split; [reflexivity |]. split; [exact Hfresh |].
  exact (list_notes_after_create 11%Z 8%N note_create s eq_refl Hfresh).
Defined.

(** X13.  After a [delete_note] of a stored id, the listing is the
    previous listing with the object that was stored under the id
    removed, up to order. *)
Theorem list_notes_after_delete (note_id : string) (s : State) (a : addr) :
  notes s !! note_id = Some a →
  (NoteRepository.list_notes s).2
    ≡ₚ a :: (NoteRepository.list_notes (NoteRepository.delete_note note_id s).1).2.
Proof.
  intros Hk. cbn. by rewrite <- (map_to_list_delete (notes s) note_id a Hk).
Qed.

Lemma list_notes_after_delete_witness :
  let k := generate_note_id 7%N in
  let s := state (run [CreateNote 10%Z 7%N (NoteCreate.Build "Groceries" "Milk, eggs");
                       CreateNote 11%Z 8%N (NoteCreate.Build "Todo" "")]) in
  notes s !! k = Some 0 ∧
  (NoteRepository.list_notes s).2
    ≡ₚ 0 :: (NoteRepository.list_notes (NoteRepository.delete_note k s).1).2.
Proof.
  intros k s.
  assert (notes s !! k = Some 0) as Hk by (vm_compute; reflexivity).
  split; [exact Hk |].
  exact (list_notes_after_delete k s 0 Hk).
Defined.

(** X14.  After an [update_note] of a stored id, the listing is the
    previous listing with the object that was stored under the id
    replaced by the returned one, which is a different object; the other
    listed objects are the same, up to order. *)
Theorem list_notes_after_update
    (now : datetime) (note_id : string) (note_update : NoteUpdate.t)
    (s : State) (a : addr) (prior : Note.t) :
  notes s !! note_id = Some a →
  deref s a = Some prior →
  let r := NoteRepository.update_note now note_id note_update s in
  ∃ a' rest,
    r.2 = Some a'
    ∧ a' ≠ a
    ∧ (NoteRepository.list_notes s).2 ≡ₚ a :: rest
    ∧ (NoteRepository.list_notes r.1).2 ≡ₚ a' :: rest.
Proof.
  unfold deref. intros Hk Ha.
  rewrite (update_note_Some _ _ _ _ a prior) by done. cbn.
  exists (length (heap s)), (map_to_list (delete note_id (notes s))).*2.
  split_and!; [done | | |].
  - apply lookup_lt_Some in Ha. lia.
  - by rewrite <- (map_to_list_delete (notes s) note_id a Hk).
  - rewrite <- insert_delete_eq.
    by rewrite map_to_list_insert by apply lookup_delete_eq.
Qed.

Lemma list_notes_after_update_witness :
  let k := generate_note_id 7%N in
  let s := state (run [CreateNote 10%Z 7%N (NoteCreate.Build "Groceries" "Milk, eggs");
                       CreateNote 11%Z 8%N (NoteCreate.Build "Todo" "")]) in
  let prior := Note.Build k "Groceries" "Milk, eggs" 10%Z 10%Z in
  let r := NoteRepository.update_note 12%Z k (NoteUpdate.Build (Some "Shopping") None) s in
  notes s !! k = Some 0 ∧
  deref s 0 = Some prior ∧
  ∃ a' rest,
    r.2 = Some a'
    ∧ a' ≠ 0
    ∧ (NoteRepository.list_notes s).2 ≡ₚ 0 :: rest
    ∧ (NoteRepository.list_notes r.1).2 ≡ₚ a' :: rest.
Proof.
  intros k s prior r.
  assert (notes s !! k = Some 0) as Hk by (vm_compute; reflexivity).
  assert (deref s 0 = Some prior) as Ha by (vm_compute; reflexivity).
  split; [exact Hk |]. split; [exact Ha |].
  exact (list_notes_after_update 12%Z k (NoteUpdate.Build (Some "Shopping") None)
           s 0 prior Hk Ha).
Defined.

(** * Properties of the handlers *)

(** X15.  After any sequence of repository calls, the GET handler leaves
    the state as it is, and either the id is not stored and it raises the
    404 [HTTPException] with detail ["Note not found"], or it returns a
    reference to the note stored under the id, whose [id] is the
    requested one. *)
Theorem get_handler (calls : list call) (note_id : string) :
  let s := state (run calls) in
  (notes s !! note_id = None
   ∧ Main.get_note note_id s = (s, Raise (HTTPException 404 "Note not found")))
  ∨ (∃ a n,
       Main.get_note note_id s = (s, Return a)
       ∧ deref s a = Some n
       ∧ stored s note_id = Some n
       ∧ Note.id n = note_id).
Proof.
  intros s. unfold Main.get_note, NoteRepository.get_note.
  destruct (notes s !! note_id) as [a|] eqn:L; [right | by left].
  destruct (run_entry_stored calls note_id a L) as (n & ? & ? & ?).
  by exists a, n.
Qed.

(** X16.  After any sequence of repository calls, the PUT handler
    either raises the 404 [HTTPException] with detail ["Note not found"]
    and leaves the state as it is, which happens exactly when the id is
    not stored, or returns a reference to the note now stored under the
    id, which has the requested [id], the [created_at] of the note it
    replaces, and the current time as [updated_at]. *)
Theorem update_handler
    (calls : list call) (now : datetime) (note_id : string)
    (note_update : NoteUpdate.t) :
  let s := state (run calls) in
  (notes s !! note_id = None
   ∧ Main.update_note now note_id note_update s
       = (s, Raise (HTTPException 404 "Note not found")))
  ∨ (∃ s' a n prior,
       stored s note_id = Some prior
       ∧ Main.update_note now note_id note_update s = (s', Return a)
       ∧ stored s' note_id = Some n
       ∧ deref s' a = Some n
       ∧ Note.id n = note_id
       ∧ Note.created_at n = Note.created_at prior
       ∧ Note.updated_at n = now).
Proof.
  intros s. unfold Main.update_note.
  destruct (notes s !! note_id) as [a|] eqn:L.
  - right. destruct (run_entry_stored calls note_id a L) as (prior & _ & St & Hid).
    destruct (update_note_stored now note_id note_update s prior St)
      as (s' & a' & n & E & Hderef & -> & _ & St').
    rewrite E. exists s', a'. eexists _, prior. by split_and!.
  - left. split; [done |]. by rewrite update_note_None.
Qed.

(** X17.  Once the DELETE handler has returned a response for an id, the
    GET, PUT and DELETE handlers called with that id on the resulting
    state all raise the 404 [HTTPException] with detail
    ["Note not found"], and leave that state as it is. *)
Theorem handlers_after_delete
    (note_id : string) (s s' : State) (response : Main.JSONResponse) :
  Main.delete_note note_id s = (s', Return response) →
  Main.get_note note_id s' = (s', Raise (HTTPException 404 "Note not found"))
  ∧ (∀ now note_update,
       Main.update_note now note_id note_update s'
         = (s', Raise (HTTPException 404 "Note not found")))
  ∧ Main.delete_note note_id s' = (s', Raise (HTTPException 404 "Note not found")).
Proof.
  intros Hdel.
  assert (notes s' !! note_id = None) as Habs.
  { unfold Main.delete_note, NoteRepository.delete_note in Hdel.
    destruct (notes s !! note_id); cbn in Hdel; [| done].
    injection Hdel as <- _. cbn. apply lookup_delete_eq. }
  split_and!.
  - unfold Main.get_note, NoteRepository.get_note. by rewrite Habs.
  - intros now nu. unfold Main.update_note. by rewrite update_note_None.
  - unfold Main.delete_note. by rewrite delete_note_false.
Qed.

Lemma handlers_after_delete_witness :
  let k := generate_note_id 7%N in
  let s := state (run [CreateNote 10%Z 7%N (NoteCreate.Build "Groceries" "Milk, eggs")]) in
  let s' := (Main.delete_note k s).1 in
  Main.delete_note k s = (s', Return (Main.mkResponse 204 "null")) ∧
  Main.get_note k s' = (s', Raise (HTTPException 404 "Note not found"))
  ∧ (∀ now note_update,
       Main.update_note now k note_update s'
         = (s', Raise (HTTPException 404 "Note not found")))
  ∧ Main.delete_note k s' = (s', Raise (HTTPException 404 "Note not found")).
Proof.
  intros k s s'.
  assert (Main.delete_note k s = (s', Return (Main.mkResponse 204 "null"))) as Hdel
    by (vm_compute; reflexivity).
  split; [exact Hdel |].
  exact (handlers_after_delete k s s' _ Hdel).
Defined.

(** * Properties of the generated identifiers *)

(** ** Characters of a string *)

Lemma get_app (s1 s2 : string) (i : nat) :
  String.get i (s1 +:+ s2) =
    if decide (i < String.length s1) then String.get i s1
    else String.get (i - String.length s1) s2.
Proof.
  revert i. induction s1 as [|c s1 IH]; intros i.
  - cbn. by rewrite Nat.sub_0_r.
  - destruct i as [|i]; [done |].
    change (String.get (S i) (String c s1 +:+ s2)) with (String.get i (s1 +:+ s2)).
    rewrite IH. cbn [String.length String.get].
    repeat case_decide; try lia; done.
Qed.

Lemma hex_get (w : nat) (n : N) (i : nat) :
  i < w →
  String.get i (hex w n) = Some (hex_digit ((n / 16 ^ N.of_nat (w - 1 - i)) mod 16)%N).
Proof.
  revert n i. induction w as [|k IH]; intros n i Hi; [lia |].
  cbn [hex]. rewrite get_app, hex_length.
  case_decide as Hlt.
  - rewrite IH by done. do 2 f_equal.
    rewrite N.Div0.div_div. f_equal. f_equal.
    replace (S k - 1 - i) with (S (k - 1 - i)) by lia.
    rewrite Nat2N.inj_succ, N.pow_succ_r'. done.
  - replace (i - k) with 0 by lia. replace (S k - 1 - i) with 0 by lia.
    cbn [String.get N.of_nat]. by rewrite N.pow_0_r, N.div_1_r.
Qed.

Ltac get_step :=
  rewrite get_app;
  rewrite ?substring_length by (rewrite hex_length; lia);
  cbn [String.length];
  first [rewrite decide_True by lia | rewrite decide_False by lia].

Lemma get_substring (s : string) (n m p : nat) :
  p < m → String.get p (String.substring n m s) = String.get (p + n) s.
Proof. apply String.substring_correct1. Qed.

(** The hex digit [j] of the integer sits at position [uuid_pos j] of
    the rendered UUID. *)
Lemma uuid_str_get_digit (n : N) (j : nat) :
  j < 32 → String.get (uuid_pos j) (uuid_str n) = String.get j (hex 32 n).
Proof.
  intros Hj. unfold uuid_pos, uuid_str. cbv zeta.
  repeat case_decide.
  - get_step. rewrite get_substring by lia. f_equal. lia.
  - do 3 get_step. rewrite get_substring by lia. f_equal. lia.
  - do 5 get_step. rewrite get_substring by lia. f_equal. lia.
  - do 7 get_step. rewrite get_substring by lia. f_equal. lia.
  - do 8 get_step. rewrite get_substring by lia. f_equal. lia.
Qed.

Lemma uuid_str_get_hyphen (n : N) (i : nat) :
  i ∈ [8; 13; 18; 23] → String.get i (uuid_str n) = Some "-"%char.
Proof.
  intros Hi. unfold uuid_str. cbv zeta.
  repeat (apply elem_of_cons in Hi as [-> | Hi]).
  - do 2 get_step. done.
  - do 4 get_step. done.
  - do 6 get_step. done.
  - do 8 get_step. done.
  - by apply elem_of_nil in Hi.
Qed.

Section uuid4_bits.
Local Open Scope N_scope.

(** The bits of [uuid4] at and above position 60, in terms of masks. *)
Lemma uuid4_testbit (urandom m : N) :
  N.testbit (uuid4 urandom) m =
    (((N.testbit (urandom mod 2 ^ 128) m && negb (N.testbit (N.shiftl 0xc000 48) m)
       || N.testbit (N.shiftl 0x8000 48) m)
      && negb (N.testbit (N.shiftl 0xf000 64) m))
     || N.testbit (N.shiftl 4 76) m)%bool.
Proof.
  unfold uuid4. cbv zeta.
  by rewrite N.lor_spec, N.ldiff_spec, N.lor_spec, N.ldiff_spec.
Qed.

Lemma nibble_testbit (x k m : N) :
  N.testbit ((x / 2 ^ k) mod 16) m = (N.testbit x (m + k) && (m <? 4))%bool.
Proof.
  change 16 with (2 ^ 4). rewrite <- N.land_ones, <- N.shiftr_div_pow2.
  rewrite N.land_spec, N.shiftr_spec'. f_equal.
  destruct (N.ltb_spec m 4).
  - by apply N.ones_spec_low.
  - by apply N.ones_spec_high.
Qed.

Lemma uuid4_version (urandom : N) : (uuid4 urandom / 16 ^ 19) mod 16 = 4.
Proof.
  change (16 ^ 19) with (2 ^ 76). apply N.bits_inj. intros m.
  rewrite nibble_testbit, uuid4_testbit.
  destruct (N.ltb_spec m 4) as [Hm | Hm].
  - assert (m = 0 ∨ m = 1 ∨ m = 2 ∨ m = 3) as [-> | [-> | [-> | ->]]] by lia;
      cbn [N.add]; generalize (N.testbit (urandom mod 2 ^ 128));
      intros f; vm_compute; by destruct (f _).
  - rewrite andb_false_r. symmetry. apply N.bits_above_log2.
    change (N.log2 4) with 2. lia.
Qed.

Lemma uuid4_variant (urandom : N) :
  ∃ d, (uuid4 urandom / 16 ^ 15) mod 16 = d ∧ (d = 8 ∨ d = 9 ∨ d = 10 ∨ d = 11).
Proof.
  eexists. split; [reflexivity |].
  set (d := (uuid4 urandom / 16 ^ 15) mod 16).
  assert (d < 16) as Hlt by (apply N.mod_lt; lia).
  assert (N.testbit d 3 = true) as H3.
  { unfold d. change (16 ^ 15) with (2 ^ 60).
    rewrite nibble_testbit, uuid4_testbit. cbn [N.add].
    generalize (N.testbit (urandom mod 2 ^ 128)); intros f.
    vm_compute. by destruct (f _). }
  assert (N.testbit d 2 = false) as H2.
  { unfold d. change (16 ^ 15) with (2 ^ 60).
    rewrite nibble_testbit, uuid4_testbit. cbn [N.add].
    generalize (N.testbit (urandom mod 2 ^ 128)); intros f.
    vm_compute. by destruct (f _). }
  clearbody d.
  assert (d = 0 ∨ d = 1 ∨ d = 2 ∨ d = 3 ∨ d = 4 ∨ d = 5 ∨ d = 6 ∨ d = 7 ∨ d = 8
          ∨ d = 9 ∨ d = 10 ∨ d = 11 ∨ d = 12 ∨ d = 13 ∨ d = 14 ∨ d = 15) as Hd by lia.
  repeat (destruct Hd as [-> | Hd]); try discriminate; try subst d; try discriminate; auto.
Qed.

End uuid4_bits.

(** X18.  Every generated id has the canonical form of a version 4 UUID:
    36 characters, hyphens at positions 8, 13, 18 and 23, the version
    digit 4 at position 14, and one of 8, 9, a, b (the variant) at
    position 19. *)
Theorem generate_note_id_shape (urandom : N) :
  let note_id := generate_note_id urandom in
  String.length note_id = 36
  ∧ String.get 8 note_id = Some "-"%char
  ∧ String.get 13 note_id = Some "-"%char
  ∧ String.get 18 note_id = Some "-"%char
  ∧ String.get 23 note_id = Some "-"%char
  ∧ String.get 14 note_id = Some "4"%char
  ∧ ∃ c, String.get 19 note_id = Some c ∧ c ∈ ["8"; "9"; "a"; "b"]%char.
Proof.
  intros note_id. unfold note_id, generate_note_id.
  split; [apply generate_note_id_length |].
  do 4 (split; [apply uuid_str_get_hyphen; set_solver |]).
  split.
  - change 14 with (uuid_pos 12). rewrite uuid_str_get_digit, hex_get by lia.
    change (N.of_nat (32 - 1 - 12)) with 19%N. by rewrite uuid4_version.
  - change 19 with (uuid_pos 16). rewrite uuid_str_get_digit, hex_get by lia.
    change (N.of_nat (32 - 1 - 16)) with 15%N.
    destruct (uuid4_variant urandom) as (d & -> & [-> | [-> | [-> | ->]]]);
      eexists; (split; [reflexivity |]); set_solver.
Qed.

Lemma hex_digit_inj (a b : N) :
  (a < 16)%N → (b < 16)%N → hex_digit a = hex_digit b → a = b.
Proof.
  intros Ha Hb.
  assert (a = 0 ∨ a = 1 ∨ a = 2 ∨ a = 3 ∨ a = 4 ∨ a = 5 ∨ a = 6 ∨ a = 7 ∨ a = 8
          ∨ a = 9 ∨ a = 10 ∨ a = 11 ∨ a = 12 ∨ a = 13 ∨ a = 14 ∨ a = 15)%N as Ha' by lia.
  assert (b = 0 ∨ b = 1 ∨ b = 2 ∨ b = 3 ∨ b = 4 ∨ b = 5 ∨ b = 6 ∨ b = 7 ∨ b = 8
          ∨ b = 9 ∨ b = 10 ∨ b = 11 ∨ b = 12 ∨ b = 13 ∨ b = 14 ∨ b = 15)%N as Hb' by lia.
  clear Ha Hb.
  repeat (destruct Ha' as [-> | Ha']); try subst a;
    repeat (destruct Hb' as [-> | Hb']); try subst b;
    first [reflexivity | discriminate].
Qed.

Lemma app_singleton_inj (s1 s2 : string) (c1 c2 : ascii) :
  s1 +:+ String c1 "" = s2 +:+ String c2 "" → s1 = s2 ∧ c1 = c2.
Proof.
  revert s2. induction s1 as [|a s1 IH]; intros [|b s2] H.
  - by injection H as ->.
  - injection H as -> H. by destruct s2.
  - injection H as -> H. by destruct s1.
  - injection H as -> H. destruct (IH s2 H) as [-> ->]. done.
Qed.

Lemma hex_inj (w : nat) (n1 n2 : N) :
  hex w n1 = hex w n2 →
  (n1 mod 16 ^ N.of_nat w = n2 mod 16 ^ N.of_nat w)%N.
Proof.
  revert n1 n2. induction w as [|k IH]; intros n1 n2 H.
  - cbn. by rewrite !N.mod_1_r.
  - cbn [hex] in H. apply app_singleton_inj in H as [Hhigh Hlow].
    apply IH in Hhigh.
    apply hex_digit_inj in Hlow; [| apply N.mod_lt; lia | apply N.mod_lt; lia].
    rewrite Nat2N.inj_succ, N.pow_succ_r'.
    rewrite !N.Div0.mod_mul_r. congruence.
Qed.

Lemma get_None (s : string) (i : nat) : String.length s ≤ i → String.get i s = None.
Proof.
  revert i. induction s as [|c s IH]; intros i Hi; [by destruct i |].
  destruct i as [|i]; cbn in *; [lia |]. apply IH. lia.
Qed.

Lemma uuid_str_inj (n1 n2 : N) : uuid_str n1 = uuid_str n2 → hex 32 n1 = hex 32 n2.
Proof.
  intros H. apply String.get_correct. intros j.
  destruct (decide (j < 32)) as [Hj | Hj].
  - by rewrite <- !uuid_str_get_digit, H by done.
  - by rewrite !get_None by (rewrite hex_length; lia).
Qed.

Lemma uuid4_lt (urandom : N) : (uuid4 urandom < 2 ^ 128)%N.
Proof.
  assert (uuid4 urandom = uuid4 urandom mod 2 ^ 128)%N as ->;
    [| apply N.mod_lt; lia].
  apply N.bits_inj. intros m.
  destruct (N.lt_ge_cases m 128) as [Hm | Hm].
  - by rewrite N.mod_pow2_bits_low.
  - rewrite (N.mod_pow2_bits_high (uuid4 urandom)) by done.
    rewrite uuid4_testbit, N.mod_pow2_bits_high by done.
    rewrite (N.bits_above_log2 (N.shiftl 32768 48))
      by (change (N.log2 (N.shiftl 32768 48)) with 63%N; lia).
    rewrite (N.bits_above_log2 (N.shiftl 4 76))
      by (change (N.log2 (N.shiftl 4 76)) with 78%N; lia).
    done.
Qed.

Section uuid4_free_bits.
Local Open Scope N_scope.

Lemma shiftl_testbit (c k m : N) :
  N.testbit (N.shiftl c k) m = ((k <=? m) && N.testbit c (m - k))%bool.
Proof.
  destruct (N.leb_spec k m) as [H | H].
  - by rewrite N.shiftl_spec_high'.
  - by rewrite N.shiftl_spec_low.
Qed.

Lemma testbit_small (c j : N) : N.log2 c < j → N.testbit c j = false.
Proof. apply N.bits_above_log2. Qed.

(** Outside the six forced bits, [uuid4] keeps the bits of the random
    bytes. *)
Lemma uuid4_testbit_free (urandom m : N) :
  m < 128 → forced_bit m = false →
  N.testbit (uuid4 urandom) m = N.testbit urandom m.
Proof.
  intros Hm Hf. unfold forced_bit in Hf.
  apply orb_false_iff in Hf as [[H62%N.eqb_neq H63%N.eqb_neq]%orb_false_iff Hv].
  assert (m < 76 ∨ 79 < m) as Hver.
  { apply andb_false_iff in Hv as [H%N.leb_gt | H%N.leb_gt]; lia. }
  rewrite uuid4_testbit, N.mod_pow2_bits_low by done.
  change (N.shiftl 49152 48) with (N.shiftl 3 62).
  change (N.shiftl 32768 48) with (N.shiftl 1 63).
  change (N.shiftl 61440 64) with (N.shiftl 15 76).
  change (N.shiftl 4 76) with (N.shiftl 1 78).
  rewrite !shiftl_testbit.
  assert ((62 <=? m) && N.testbit 3 (m - 62) = false)%bool as ->.
  { destruct (N.leb_spec 62 m); [| done]. cbn [andb].
    apply testbit_small. change (N.log2 3) with 1. lia. }
  assert ((63 <=? m) && N.testbit 1 (m - 63) = false)%bool as ->.
  { destruct (N.leb_spec 63 m); [| done]. cbn [andb].
    apply testbit_small. change (N.log2 1) with 0. lia. }
  assert ((76 <=? m) && N.testbit 15 (m - 76) = false)%bool as ->.
  { destruct (N.leb_spec 76 m); [| done]. cbn [andb].
    apply testbit_small. change (N.log2 15) with 3. lia. }
  assert ((78 <=? m) && N.testbit 1 (m - 78) = false)%bool as ->.
  { destruct (N.leb_spec 78 m); [| done]. cbn [andb].
    apply testbit_small. change (N.log2 1) with 0. lia. }
  cbn. by rewrite !andb_true_r, !orb_false_r.
Qed.

(** At the forced bits, and above the 128, the bits of [uuid4] do not
    depend on the random bytes. *)
Lemma uuid4_testbit_forced (urandom1 urandom2 m : N) :
  forced_bit m = true ∨ 128 ≤ m →
  N.testbit (uuid4 urandom1) m = N.testbit (uuid4 urandom2) m.
Proof.
  intros [Hf | Hm].
  - unfold forced_bit in Hf.
    assert (m = 62 ∨ m = 63 ∨ m = 76 ∨ m = 77 ∨ m = 78 ∨ m = 79)
      as [-> | [-> | [-> | [-> | [-> | ->]]]]].
    { apply orb_true_iff in Hf as [[H%N.eqb_eq | H%N.eqb_eq]%orb_true_iff
                                   | [H1%N.leb_le H2%N.leb_le]%andb_true_iff]; lia. }
    all: rewrite !uuid4_testbit;
      generalize (N.testbit (urandom1 mod 2 ^ 128));
      generalize (N.testbit (urandom2 mod 2 ^ 128));
      intros f g; vm_compute; by destruct (f _), (g _).
  - assert (∀ u, N.testbit (uuid4 u) m = false) as Hhigh.
    { intros u. rewrite <- (N.mod_small (uuid4 u) (2 ^ 128)) by apply uuid4_lt.
      by apply N.mod_pow2_bits_high. }
    by rewrite !Hhigh.
Qed.

Lemma uuid4_eq_iff (urandom1 urandom2 : N) :
  uuid4 urandom1 = uuid4 urandom2
  ↔ ∀ m, m < 128 → forced_bit m = false →
         N.testbit urandom1 m = N.testbit urandom2 m.
Proof.
  split.
  - intros E m Hm Hf.
    by rewrite <- (uuid4_testbit_free urandom1), <- (uuid4_testbit_free urandom2), E.
  - intros H. apply N.bits_inj. intros m.
    destruct (forced_bit m) eqn:Hf;
      [apply uuid4_testbit_forced; by left |].
    destruct (N.lt_ge_cases m 128) as [Hm | Hm];
      [| apply uuid4_testbit_forced; by right].
    rewrite !uuid4_testbit_free by done. by apply H.
Qed.

End uuid4_free_bits.

(** X19.  The id loses nothing of the UUID it renders: two generated ids
    are equal exactly when the two 128-bit UUID values are, that is when
    the random bytes agree on every bit of the 128 other than the six
    that are forced. *)
Theorem generate_note_id_inj (urandom1 urandom2 : N) :
  (generate_note_id urandom1 = generate_note_id urandom2
   ↔ uuid4 urandom1 = uuid4 urandom2)
  ∧ (generate_note_id urandom1 = generate_note_id urandom2
     ↔ ∀ m, (m < 128)%N → forced_bit m = false →
            N.testbit urandom1 m = N.testbit urandom2 m).
Proof.
  assert (generate_note_id urandom1 = generate_note_id urandom2
          ↔ uuid4 urandom1 = uuid4 urandom2) as Hid.
  { unfold generate_note_id. split; [| by intros ->].
    intros H%uuid_str_inj%hex_inj.
    change (16 ^ N.of_nat 32)%N with (2 ^ 128)%N in H.
    by rewrite !N.mod_small in H by apply uuid4_lt. }
  split; [exact Hid |]. by rewrite Hid, uuid4_eq_iff.
Qed.

Lemma generate_note_id_inj_witness :
  generate_note_id 5%N = generate_note_id (5 + 2 ^ 62 + 2 ^ 130)%N
  ∧ (0 < 128)%N
  ∧ forced_bit 0%N = false
  ∧ N.testbit 5%N 0%N = N.testbit (5 + 2 ^ 62 + 2 ^ 130)%N 0%N.
Proof.
  assert (generate_note_id 5%N = generate_note_id (5 + 2 ^ 62 + 2 ^ 130)%N) as E
    by (vm_compute; reflexivity).
  destruct (generate_note_id_inj 5%N (5 + 2 ^ 62 + 2 ^ 130)%N) as [_ [Hbits _]].
  split; [exact E |]. split; [reflexivity |]. split; [reflexivity |].
  exact (Hbits E 0%N eq_refl eq_refl).
Defined.

(** * A request sequence through the handlers *)

Lemma create_note_stored
    (now : datetime) (urandom : N) (title content : string) (s : State) :
  title ≠ "" →
  ∃ s' a n,
    NoteRepository.create_note now urandom (NoteCreate.Build title content) s
      = (s', Return a)
    ∧ deref s' a = Some n
    ∧ Note.title n = title
    ∧ Note.content n = content
    ∧ NoteRepository.get_note (Note.id n) s' = (s', Some a)
    ∧ stored s' (Note.id n) = Some n.
Proof.
  intros Ht%min_length_1.
  eexists _, _, _. split; [by apply create_note_Return |].
  split; [apply heap_alloc_new |].
  unfold stored, NoteRepository.get_note. cbn [heap notes Note.id].
  rewrite !lookup_insert_eq. split_and!; try reflexivity. apply heap_alloc_new.
Qed.

(** X20.  From any state, for a non-empty title: the POST handler returns
    a note; the GET handler with that note's id returns the same object;
    the PUT handler with that id returns a note with the same [id] and
    [created_at], the provided fields replaced and the others kept; the
    DELETE handler with that id then returns a response with status 204;
    and a GET with that id afterwards raises the 404 [HTTPException]
    with detail ["Note not found"]. *)
Theorem handlers_round_trip
    (now1 now2 : datetime) (urandom : N) (title content : string)
    (note_update : NoteUpdate.t) (s : State) :
  title ≠ "" →
  ∃ s1 a1 n1 s2 a2 n2 s3 response,
    Main.create_note now1 urandom (NoteCreate.Build title content) s = (s1, Return a1)
    ∧ deref s1 a1 = Some n1
    ∧ Note.title n1 = title ∧ Note.content n1 = content
    ∧ Main.get_note (Note.id n1) s1 = (s1, Return a1)
    ∧ Main.update_note now2 (Note.id n1) note_update s1 = (s2, Return a2)
    ∧ deref s2 a2 = Some n2
    ∧ Note.id n2 = Note.id n1
    ∧ Note.created_at n2 = Note.created_at n1
    ∧ Note.title n2 = default title (NoteUpdate.title note_update)
    ∧ Note.content n2 = default content (NoteUpdate.content note_update)
    ∧ Main.get_note (Note.id n1) s2 = (s2, Return a2)
    ∧ Main.delete_note (Note.id n1) s2 = (s3, Return response)
    ∧ Main.status_code response = 204%Z
    ∧ Main.get_note (Note.id n1) s3
        = (s3, Raise (HTTPException 404 "Note not found")).
Proof.
  intros Ht.
  destruct (create_note_stored now1 urandom title content s Ht)
    as (s1 & a1 & n1 & Hcreate & Hd1 & Htitle & Hcontent & Hget1 & St1).
  destruct (update_note_stored now2 (Note.id n1) note_update s1 n1 St1)
    as (s2 & a2 & n2 & Hupd & Hd2 & -> & Hnotes2 & St2).
  assert (notes s2 !! Note.id n1 = Some a2) as Hk2
    by (rewrite Hnotes2; apply lookup_insert_eq).
  destruct (delete_handler (Note.id n1) s2) as (_ & Hdel & _).
  specialize (Hdel (ex_intro _ a2 Hk2)).
  exists s1, a1, n1, s2, a2. eexists _, _, _.
  split_and!; try done.
  - unfold Main.get_note. by rewrite Hget1.
  - unfold Main.update_note. by rewrite Hupd.
  - cbn. by rewrite Htitle.
  - cbn. by rewrite Hcontent.
  - unfold Main.get_note, NoteRepository.get_note. by rewrite Hk2.
  - unfold Main.get_note, NoteRepository.get_note. cbn [notes].
    by rewrite lookup_delete_eq.
Qed.

Lemma handlers_round_trip_witness :
  "Groceries" ≠ "" ∧
  ∃ s1 a1 n1 s2 a2 n2 s3 response,
    Main.create_note 10%Z 7%N (NoteCreate.Build "Groceries" "Milk, eggs")
      NoteRepository.init = (s1, Return a1)
    ∧ deref s1 a1 = Some n1
    ∧ Note.title n1 = "Groceries" ∧ Note.content n1 = "Milk, eggs"
    ∧ Main.get_note (Note.id n1) s1 = (s1, Return a1)
    ∧ Main.update_note 12%Z (Note.id n1)
        (NoteUpdate.Build None (Some "Milk, eggs, bread")) s1 = (s2, Return a2)
    ∧ deref s2 a2 = Some n2
    ∧ Note.id n2 = Note.id n1
    ∧ Note.created_at n2 = Note.created_at n1
    ∧ Note.title n2 = "Groceries"
    ∧ Note.content n2 = "Milk, eggs, bread"
    ∧ Main.get_note (Note.id n1) s2 = (s2, Return a2)
    ∧ Main.delete_note (Note.id n1) s2 = (s3, Return response)
    ∧ Main.status_code response = 204%Z
    ∧ Main.get_note (Note.id n1) s3
        = (s3, Raise (HTTPException 404 "Note not found")).
Proof.
  split; [discriminate |].
  apply (handlers_round_trip 10%Z 12%Z 7%N "Groceries" "Milk, eggs"
           (NoteUpdate.Build None (Some "Milk, eggs, bread")) NoteRepository.init).
  discriminate.
Defined.

(** * Validated histories *)

(** X21.  In a sequence of calls that pass the request validation, no
    [create_note] raises: the number of notes [create_note] has returned
    is the number of [create_note] calls made. *)
Theorem created_count (calls : list call) :
  Forall (λ c, validated c = true) calls →
  length (created (run calls)) = length (filter (λ c, is_create c = true) calls).
Proof.
  induction calls as [|c calls IH] using rev_ind; [done |].
  rewrite Forall_app, Forall_singleton. intros [Hcalls Hc].
  rewrite run_snoc, filter_app, length_app, <- (IH Hcalls).
  destruct c as [now urandom nc | | | | ]; unfold observe, exec.
  - cbn in Hc. rewrite create_note_Return by done. cbn [heap].
    rewrite heap_alloc_new. cbn [created]. rewrite length_app.
    by rewrite filter_cons_True.
  - cbn. by rewrite length_app.
  - destruct (NoteRepository.update_note _ _ _ _). cbn. by rewrite length_app.
  - cbn. by rewrite length_app.
  - cbn. by rewrite length_app.
Qed.

Lemma created_count_witness :
  let calls := [CreateNote 10%Z 7%N (NoteCreate.Build "Groceries" "Milk, eggs");
                ListNotes;
                CreateNote 11%Z 8%N (NoteCreate.Build "Todo" "");
                DeleteNote (generate_note_id 7%N)] in
  Forall (λ c, validated c = true) calls ∧
  length (created (run calls)) = length (filter (λ c, is_create c = true) calls).
Proof.
  intros calls.
  assert (Forall (λ c, validated c = true) calls) as Hv by (repeat constructor).
  split; [exact Hv |].
  exact (created_count calls Hv).
Defined.
